(** * startup-aid: answer reconciliation and grading orchestration

    A shallow embedding of the pure core of [streamlit_app.py] and
    [grader.py]: [merge_ocr_results], [prepare_grading_data], the grading
    loop of [grading_page] around [grade_answer], and the total-score
    computation of [grading_page].

    Python dictionaries are finite maps from strings ([gmap string value]);
    [{**a, **b}] is the union that prefers [b].  JSON scalars are [None],
    numbers and strings.  Numbers are exact rationals ([Qc]); strings are
    byte strings. *)

From Stdlib Require Import Ascii QArith Qcanon.
From stdpp Require Import base option list gmap strings fin_maps.

Open Scope string_scope.

(** ** Python values *)

Inductive value : Type :=
  | VNone
  | VNum (q : Qc)
  | VStr (s : string).

Abbreviation dict := (gmap string value).

(** A call returns or raises; an exception carries the text [str(e)]
    yields.  A [TypeError] raised by an operator is written with its class
    name only. *)
Inductive result (A : Type) : Type :=
  | Ok (a : A)
  | Raise (msg : string).
Arguments Ok {A} a.
Arguments Raise {A} msg.

Definition bind {A B} (r : result A) (k : A → result B) : result B :=
  match r with
  | Ok a => k a
  | Raise msg => Raise msg
  end.

Notation "x ←! r ; k" := (bind r (fun x => k))
  (at level 20, r at level 100, k at level 200, right associativity,
   only parsing).

(** [d.get(key, dflt)] *)
Definition get (d : dict) (key : string) (dflt : value) : value :=
  default dflt (d !! key).

(** The binary [+]: concatenation on strings, addition on numbers,
    [TypeError] on anything else. *)
Definition py_add (a b : value) : result value :=
  match a, b with
  | VStr s, VStr t => Ok (VStr (s ++ t))
  | VNum x, VNum y => Ok (VNum (x + y)%Qc)
  | _, _ => Raise "TypeError"
  end.

(** [str.lower] on the ASCII letters; no other character lowers to one of
    the letters of the continuation marker. *)
Definition lower_ascii (c : ascii) : ascii :=
  let n := N_of_ascii c in
  if ((65 <=? n) && (n <=? 90))%N then ascii_of_N (n + 32) else c.

Fixpoint lower (s : string) : string :=
  match s with
  | EmptyString => EmptyString
  | String c rest => String (lower_ascii c) (lower rest)
  end.

Definition nl2 : string := String "010"%char (String "010"%char EmptyString).

(** A JSON document handed back by an extraction call: a list of records,
    or anything else (the [{"text": ...}] and [{"error": ...}] fallbacks, an
    object, a scalar); [isinstance(x, list)] tells them apart. *)
Inductive extraction : Type :=
  | Records (items : list dict)
  | NotAList.

Definition num (z : Z) : value := VNum (Q2Qc (inject_Z z)).

(** ** Fragment merger and request assembler ([streamlit_app.py]) *)

(** [st.session_state], restricted to the keys the grading path reads; a
    key that was never stored is [None]. *)
Record session_state : Type := {
  merged_answers : option dict;
  question_paper_json : option extraction;
  grading_scheme_json : option extraction;
  user_notes : option value
}.

Section Reconciliation.
(** [str] of a number is Python's own formatting and stays abstract. *)
Variable num_repr : Qc → string.

Definition py_str (v : value) : string :=
  match v with
  | VNone => "None"
  | VNum q => num_repr q
  | VStr s => s
  end.

(** The two locals of the merge loop: the mapping built so far and
    [last_question]. *)
Definition merge_state : Type := dict * option string.

(** Body of the inner [for item in page_results] loop. *)
Definition merge_item (st : merge_state) (item : dict) : result merge_state :=
  let '(merged, last_question) := st in
  let question_num := py_str (get item "question_number" (VStr "Unknown")) in
  let answer := get item "answer" (VStr "No answer extracted") in
  match String.eqb (lower question_num) "contd", last_question with
  | true, Some last =>
      t ←! py_add (get merged last (VStr "")) (VStr nl2);
      r ←! py_add t answer;
      Ok (<[last := r]> merged, Some last)
  | _, _ =>
      match merged !! question_num with
      | Some old =>
          t ←! py_add old (VStr nl2);
          r ←! py_add t answer;
          Ok (<[question_num := r]> merged, Some question_num)
      | None =>
          Ok (<[question_num := answer]> merged, Some question_num)
      end
  end.

Fixpoint merge_items (st : merge_state) (items : list dict) : result merge_state :=
  match items with
  | [] => Ok st
  | item :: rest => st' ←! merge_item st item; merge_items st' rest
  end.

(** Body of the outer [for page_results in all_results] loop. *)
Definition merge_page (st : merge_state) (page_results : extraction)
  : result merge_state :=
  match page_results with
  | Records items => merge_items st items
  | NotAList => Ok st
  end.

Fixpoint merge_pages (st : merge_state) (all_results : list extraction)
  : result merge_state :=
  match all_results with
  | [] => Ok st
  | page_results :: rest =>
      st' ←! merge_page st page_results; merge_pages st' rest
  end.

Definition merge_ocr_results (all_results : list extraction) : result dict :=
  st ←! merge_pages (∅, None) all_results; Ok st.1.

(** The dict comprehension building [gs_lookup]: a later rubric entry
    replaces an earlier one with the same key. *)
Definition gs_lookup_of (grading_scheme : list dict) : dict :=
  foldl (fun m item =>
           <[py_str (get item "question_number" VNone)
             := get item "grading_scheme" (VStr "")]> m)
        ∅ grading_scheme.

Definition question_data_of (student_answers gs_lookup : dict)
    (professor_prompt : value) (q_num : string) (question : dict) : dict :=
  {[ "question_num" := VStr q_num;
     "question" := get question "question" (VStr "");
     "marks" := get question "marks" (num 5);
     "student_answer" := get student_answers q_num (VStr "");
     "grading_scheme" := get gs_lookup q_num (VStr "");
     "relevant_lecture_text" := VStr "";
     "professor_prompt" := professor_prompt ]}.

(** The [for question in question_paper] loop; a question whose number is
    the empty string is skipped. *)
Fixpoint assemble (student_answers gs_lookup : dict) (professor_prompt : value)
    (question_paper : list dict) : list dict :=
  match question_paper with
  | [] => []
  | question :: rest =>
      let q_num := py_str (get question "question_number" (VStr "")) in
      let tail := assemble student_answers gs_lookup professor_prompt rest in
      if String.eqb q_num "" then tail
      else question_data_of student_answers gs_lookup professor_prompt
             q_num question :: tail
  end.

(** [None] is the Python [None] returned when a prerequisite is missing
    or is not a list. *)
Definition prepare_grading_data (ss : session_state) : option (list dict) :=
  match merged_answers ss, question_paper_json ss, grading_scheme_json ss with
  | Some student_answers, Some (Records question_paper),
    Some (Records grading_scheme) =>
      Some (assemble student_answers (gs_lookup_of grading_scheme)
              (default (VStr "") (user_notes ss)) question_paper)
  | _, _, _ => None
  end.

End Reconciliation.

(** ** Grading ([grader.py] and the loop of [grading_page]) *)

(** What [json.loads] yields on success: an object, or a value of another
    type, named as [type(x).__name__] names it. *)
Inductive reply : Type :=
  | Mapping (d : dict)
  | NotMapping (tname : string).

Definition parse_fallback (text : string) : dict :=
  {[ "error" := VStr "Failed to parse grading results";
     "raw_response" := VStr text ]}.

(** The record appended by the [except Exception as e] branch. *)
Definition failed_grading (question_data : dict) (msg : string) : dict :=
  {[ "error" := VStr msg;
     "marks_awarded" := num 0;
     "explanation" := VStr "Error during grading" ]} ∪ question_data.

Section Grading.
(** The model call made for the [i]-th request of a session and the read
    of [response.text]: the text, or the exception raised on the way (a
    time-out, a response without text). *)
Variable generate_content : nat → dict → result string.
(** [json.loads]; [None] is [JSONDecodeError]. *)
Variable json_loads : string → option reply.

Definition grade_answer (i : nat) (answer_data : dict) : result reply :=
  text ←! generate_content i answer_data;
  match json_loads text with
  | Some r => Ok r
  | None => Ok (Mapping (parse_fallback text))
  end.

(** One turn of the [for i, question_data in enumerate(grading_data)]
    loop: the record appended to [results]. *)
Definition grade_one (i : nat) (question_data : dict) : dict :=
  match grade_answer i question_data with
  | Ok (Mapping grading_result) => grading_result ∪ question_data
  | Ok (NotMapping tname) =>
      failed_grading question_data ("'" ++ tname ++ "' object is not a mapping")
  | Raise msg => failed_grading question_data msg
  end.

Fixpoint grade_from (i : nat) (grading_data : list dict) : list dict :=
  match grading_data with
  | [] => []
  | question_data :: rest => grade_one i question_data :: grade_from (S i) rest
  end.

(** [st.session_state.grading_results] after [grading_page] ran on a
    session without stored results; [None] when the page reports missing
    data and returns ([if not grading_data]). *)
Definition grading_results (num_repr : Qc → string) (ss : session_state)
  : option (list dict) :=
  match prepare_grading_data num_repr ss with
  | Some (question_data :: rest) => Some (grade_from 0 (question_data :: rest))
  | _ => None
  end.

End Grading.

(** ** Total score (the header of [grading_page]) *)

(** [sum(...)] over numbers, starting from [0]. *)
Fixpoint sum_from (acc : Qc) (vs : list value) : result Qc :=
  match vs with
  | [] => Ok acc
  | VNum q :: rest => sum_from (acc + q)%Qc rest
  | _ :: _ => Raise "TypeError"
  end.

Definition py_sum (vs : list value) : result Qc := sum_from 0%Qc vs.

Definition total_marks_awarded (results : list dict) : result Qc :=
  py_sum (map (fun r => get r "marks_awarded" (num 0)) results).

Definition total_possible_marks (results : list dict) : result Qc :=
  py_sum (map (fun r => get r "marks" (num 0)) results).

Definition hundred : Qc := Q2Qc (inject_Z 100).

(** [(awarded/possible*100) if possible else 0] *)
Definition percentage (awarded possible : Qc) : Qc :=
  if decide (possible = 0%Qc) then 0%Qc
  else (awarded / possible * hundred)%Qc.

Record score : Type := {
  awarded : Qc;
  possible : Qc;
  percent : Qc
}.

(** The header shown [if results:]; [Ok None] when the list is empty and
    only a warning is shown. *)
Definition total_score (results : list dict) : result (option score) :=
  match results with
  | [] => Ok None
  | _ :: _ =>
      a ←! total_marks_awarded results;
      p ←! total_possible_marks results;
      Ok (Some {| awarded := a; possible := p; percent := percentage a p |})
  end.

(** [grading_page] on a session without stored results: the results it
    stores and the header it shows; [None] when it stops at the missing-data
    message. *)
Definition grading_page (generate_content : nat → dict → result string)
    (json_loads : string → option reply) (num_repr : Qc → string)
    (ss : session_state) : option (list dict * result (option score)) :=
  match grading_results generate_content json_loads num_repr ss with
  | Some results => Some (results, total_score results)
  | None => None
  end.

(** ** Vocabulary of the statements *)

Definition frag (label text : string) : dict :=
  {[ "question_number" := VStr label; "answer" := VStr text ]}.

(** The fragments of a scan in document order; a page that is not a list
    contributes none. *)
Fixpoint fragments (all_results : list extraction) : list dict :=
  match all_results with
  | [] => []
  | Records items :: rest => items ++ fragments rest
  | NotAList :: rest => fragments rest
  end.

Definition is_marker (label : string) : bool := String.eqb (lower label) "contd".

Definition is_text (v : value) : bool :=
  match v with VStr _ => true | _ => false end.


Definition answer_of (item : dict) : value :=
  get item "answer" (VStr "No answer extracted").

Definition text_answers (items : list dict) : bool :=
  forallb (fun item => is_text (answer_of item)) items.

(** A record in which the two sentinels have been written out. *)
Definition with_sentinels (item : dict) : dict :=
  <["question_number" := get item "question_number" (VStr "Unknown")]>
    (<["answer" := answer_of item]> item).

Definition page_with_sentinels (page_results : extraction) : extraction :=
  match page_results with
  | Records items => Records (with_sentinels <$> items)
  | NotAList => NotAList
  end.

(** The label a record is filed under once [str] has been applied, and the
    key its text ends up under: the last label for a continuation record
    when there is one, its own label otherwise. *)
Definition label_of (num_repr : Qc → string) (item : dict) : string :=
  py_str num_repr (get item "question_number" (VStr "Unknown")).

Definition target (num_repr : Qc → string) (last_question : option string)
    (item : dict) : string :=
  let q := label_of num_repr item in
  if is_marker q then default q last_question else q.

Definition joined (old : option value) (text : string) : string :=
  match old with
  | Some (VStr t) => (t ++ nl2) ++ text
  | _ => text
  end.

(** Every text gathered so far is a string and [last_question], once set,
    is a key of the mapping. *)
Definition merge_inv (st : merge_state) : Prop :=
  map_Forall (fun _ v => is_text v = true) st.1
  ∧ ∀ l, st.2 = Some l → is_Some (st.1 !! l).

Definition text_of (item : dict) : string :=
  match answer_of item with
  | VStr a => a
  | _ => ""
  end.

(** One turn of the merge loop on a record whose answer is a string. *)
Definition text_step (num_repr : Qc → string) (st : merge_state) (item : dict)
  : merge_state :=
  let key := target num_repr st.2 item in
  (<[key := VStr (joined (st.1 !! key) (text_of item))]> st.1, Some key).

(** What the continuation records that open [items] add to the text of
    the label seen just before them. *)
Fixpoint continued (num_repr : Qc → string) (items : list dict) : string :=
  match items with
  | [] => ""
  | item :: rest =>
      if is_marker (label_of num_repr item)
      then (nl2 ++ text_of item) ++ continued num_repr rest
      else ""
  end.

(** The question number of a question-paper record as the assembler reads
    it, and whether the assembler keeps the record. *)
Definition q_num_of (num_repr : Qc → string) (question : dict) : string :=
  py_str num_repr (get question "question_number" (VStr "")).

Definition has_label (num_repr : Qc → string) (question : dict) : bool :=
  negb (String.eqb (q_num_of num_repr question) "").

(** The key a rubric record is stored under in [gs_lookup]. *)
Definition rubric_key (num_repr : Qc → string) (item : dict) : string :=
  py_str num_repr (get item "question_number" VNone).

(** A session in which the three uploads were processed into lists. *)
Definition session (answers : dict) (question_paper grading_scheme : list dict)
    (notes : option value) : session_state :=
  {| merged_answers := Some answers;
     question_paper_json := Some (Records question_paper);
     grading_scheme_json := Some (Records grading_scheme);
     user_notes := notes |}.



Definition marks_awarded_of (r : dict) : value := get r "marks_awarded" (num 0).
Definition marks_of (r : dict) : value := get r "marks" (num 0).


(** ** Sample data *)

Definition plain_repr (q : Qc) : string := "0".

Definition question (number : string) (text : string) (marks : Z) : dict :=
  {[ "question_number" := VStr number; "question" := VStr text;
     "marks" := num marks ]}.

(** A question-paper record without a question number, and one without
    marks. *)
Definition unnumbered_question : dict :=
  {[ "question" := VStr "State the rank-nullity theorem."; "marks" := num 5 ]}.

Definition unmarked_question : dict :=
  {[ "question_number" := VStr "1"; "question" := VStr "Define a basis." ]}.

Definition two_requests : list dict :=
  [ {[ "question_num" := VStr "1"; "marks" := num 10 ]};
    {[ "question_num" := VStr "2"; "marks" := num 5 ]} ].

(** Stand-ins for the model and for [json.loads]. *)
Definition always_answers : nat → dict → result string :=
  fun _ _ => Ok "fine".

Definition second_call_times_out : nat → dict → result string :=
  fun i _ => match i with 1 => Raise "timed out" | _ => Ok "fine" end.

Definition no_json : string → option reply := fun _ => None.

Definition awards (marks : Z) : string → option reply :=
  fun text => Some (Mapping {[ "marks_awarded" := num marks;
                               "explanation" := VStr text ]}).

(** ** Text chunking ([rag.py])

    A [str] is a sequence of characters; [split_text] only measures and
    slices it, so the character type is left open.  The [while] loop takes
    fuel: [None] is a run that has not finished within it. *)

Section SplitText.
Context {C : Type}.

Definition py_index (len i : Z) : Z :=
  if (i <? 0)%Z then Z.max 0 (i + len) else Z.min i len.

Definition slice (text : list C) (start stop : Z) : list C :=
  let len := Z.of_nat (length text) in
  let lo := py_index len start in
  let hi := py_index len stop in
  take (Z.to_nat (hi - lo)) (drop (Z.to_nat lo) text).

Fixpoint split_loop (fuel : nat) (text : list C) (chunk_size overlap : Z)
    (start : Z) (chunks : list (list C)) : option (list (list C)) :=
  if (start <? Z.of_nat (length text))%Z then
    match fuel with
    | O => None
    | S fuel' =>
        let stop := Z.min (start + chunk_size) (Z.of_nat (length text)) in
        let start' := if (0 <? start)%Z then (start - overlap)%Z else start in
        split_loop fuel' text chunk_size overlap stop
          (chunks ++ [slice text start' stop])%list
    end
  else Some chunks.

Definition split_text (fuel : nat) (text : list C) (chunk_size overlap : Z)
  : option (list (list C)) :=
  match text with
  | [] => Some []
  | _ :: _ => split_loop fuel text chunk_size overlap 0 []
  end.

Definition chunk_count (text : list C) (chunk_size : Z) : nat :=
  Z.to_nat ((Z.of_nat (length text) + chunk_size - 1) / chunk_size).

Definition chunk_at (text : list C) (chunk_size overlap : Z) (k : nat) : list C :=
  slice text
    (match k with O => 0 | S _ => Z.of_nat k * chunk_size - overlap end)%Z
    (Z.min ((Z.of_nat k + 1) * chunk_size) (Z.of_nat (length text))).

Definition rejoin (overlap : Z) (chunks : list (list C)) : list C :=
  match chunks with
  | [] => []
  | first :: rest => first ++ concat (map (drop (Z.to_nat overlap)) rest)
  end%list.

Definition segment (text : list C) (a b : nat) : list C :=
  take (b - a) (drop a text).

Definition lo_of (c o k : nat) : nat :=
  match k with O => 0 | S _ => k * c - o end.

Definition hi_of (text : list C) (c k : nat) : nat :=
  (S k * c) `min` length text.

End SplitText.

(** ** Retrieval of lecture text ([rag.py]) *)

(** Truth value of a Python object in an [if]. *)
Definition truthy (v : value) : bool :=
  match v with
  | VNone => false
  | VNum q => negb (bool_decide (q = 0%Qc))
  | VStr s => negb (String.eqb s "")
  end.

(** [sep.join(parts)] on strings. *)
Fixpoint join (sep : string) (parts : list string) : string :=
  match parts with
  | [] => ""
  | [part] => part
  | part :: rest => part ++ sep ++ join sep rest
  end.

(** [sep.join(values)]: a [TypeError] when an item is not a string. *)
Fixpoint strings_of (values : list value) : result (list string) :=
  match values with
  | [] => Ok []
  | VStr s :: rest => parts ←! strings_of rest; Ok (s :: parts)
  | _ :: _ => Raise "TypeError"
  end.

Definition py_join (sep : string) (values : list value) : result string :=
  parts ←! strings_of values; Ok (join sep parts).

(** The loop over [search_results]: a hit without payload has no [get]. *)
Fixpoint relevant_texts (search_results : list (option dict))
  : result (list value) :=
  match search_results with
  | [] => Ok []
  | None :: _ => Raise "AttributeError"
  | Some payload :: rest =>
      let chunk_text := get payload "text" (VStr "") in
      texts ←! relevant_texts rest;
      Ok (if truthy chunk_text then chunk_text :: texts else texts)
  end.

(** [search] is what encoding the query and searching the collection
    yield: the payloads of the hits in rank order, or the exception. *)
Definition retrieve_relevant_text (search : result (list (option dict)))
  : string :=
  match (search_results ←! search;
         texts ←! relevant_texts search_results;
         py_join nl2 texts) with
  | Ok concatenated_text => concatenated_text
  | Raise _ => ""
  end.

(** ** Extraction of question papers and grading schemes ([ocr.py]) *)

(** An opened PDF: the text of each page, or the exception [get_text]
    raises on it; [Raise] for a file that cannot be opened. *)
Definition pdf : Type := result (list (result string)).

(** The [for page_num in range(len(pdf_document))] loop. *)
Fixpoint read_pages (text : string) (pages : list (result string))
  : result string :=
  match pages with
  | [] => Ok text
  | page :: rest => t ←! page; read_pages ((text ++ t) ++ nl2) rest
  end.

Definition extract_text_from_pdf (document : pdf) : string :=
  match (pages ←! document; read_pages "" pages) with
  | Ok text => text
  | Raise _ => ""
  end.

(** A decoded JSON document. *)
Inductive json : Type :=
  | JList (items : list dict)
  | JDict (d : dict)
  | JOther.

Definition to_extraction (j : json) : extraction :=
  match j with
  | JList items => Records items
  | _ => NotAList
  end.

Section Extraction.
(** The model call on a prompt and the read of [response.text]. *)
Variable ask : string → result string.
(** [json.loads]; [None] is [JSONDecodeError]. *)
Variable loads : string → option json.
(** The fixed prompts of [process_question_paper] and
    [process_grading_scheme]. *)
Variable qp_prompt gs_prompt : string.

(** The shared tail of the extraction calls: decode the response, or wrap
    it as [{"text": ...}]. *)
Definition ask_json (prompt : string) : result json :=
  text ←! ask prompt;
  match loads text with
  | Some j => Ok j
  | None => Ok (JDict {[ "text" := VStr text ]})
  end.

Definition process_question_paper (qp_text : string) : result json :=
  ask_json (qp_prompt ++ qp_text).

Definition process_grading_scheme (gs_text : string) : result json :=
  ask_json (gs_prompt ++ gs_text).

Definition error_dict (msg : string) : json :=
  JDict {[ "error" := VStr msg ]}.

Definition process_question_paper_pdf (document : pdf) : json :=
  let pdf_text := extract_text_from_pdf document in
  if String.eqb pdf_text "" then error_dict "Failed to extract text from PDF"
  else
    match process_question_paper pdf_text with
    | Ok question_data => question_data
    | Raise msg => error_dict ("Failed to process question paper: " ++ msg)
    end.

Definition process_grading_scheme_pdf (document : pdf) : json :=
  let pdf_text := extract_text_from_pdf document in
  if String.eqb pdf_text "" then error_dict "Failed to extract text from PDF"
  else
    match process_grading_scheme pdf_text with
    | Ok grading_data => grading_data
    | Raise msg => error_dict ("Failed to process grading scheme: " ++ msg)
    end.

End Extraction.

(** ** Vocabulary of further statements *)

(** The texts filed under [key], in document order, when the merge loop
    enters [items] with [last_question] as given. *)
Fixpoint texts_for (num_repr : Qc → string) (key : string)
    (last_question : option string) (items : list dict) : list string :=
  match items with
  | [] => []
  | item :: rest =>
      let filed := target num_repr last_question item in
      (if String.eqb filed key then [text_of item] else [])
        ++ texts_for num_repr key (Some filed) rest
  end.

(** An entry after further texts have been appended to it one by one. *)
Definition accumulate (old : option value) (texts : list string) : option value :=
  foldl (fun o text => Some (VStr (joined o text))) old texts.

Definition joined_texts (texts : list string) : option value :=
  match texts with
  | [] => None
  | _ :: _ => Some (VStr (join nl2 texts))
  end.

(** ** The pages of the application ([streamlit_app.py])

    One run of the script is one call of [main] on the session state and
    on what the widgets hold during that run.  [st.rerun()] ends the run;
    an exception nobody catches ends it as well, leaving the state as it
    is at that point. *)

(** A page of an uploaded answer sheet: rendering it to an image fails, or
    it is rendered and the OCR call yields a response text or raises. *)
Inductive page_run : Type :=
  | RenderFails
  | Rendered (response : result string).

(** An uploaded answer sheet; [Raise] when the PDF cannot be opened. *)
Definition scan : Type := result (list page_run).

Inductive click : Type :=
  | NoClick
  | ClickNext
  | ClickBack
  | ClickGradeAnswers
  | ClickBackToMaterials
  | ClickBackToOcr.

(** What the widgets hold during a run: the three file uploaders (name and
    content), the notes text area and the button pressed, if any. *)
Record run_input : Type := {
  uploaded_file : option (string * scan);
  question_paper : option (string * pdf);
  grading_scheme : option (string * pdf);
  notes_area : string;
  clicked : click
}.

(** [st.session_state]: the keys of [session_state] and the others the
    pages keep. *)
Record app_state : Type := {
  page : option string;
  data : session_state;
  all_ocr_results : option (list extraction);
  current_file_name : option string;
  qp_file_name : option string;
  gs_file_name : option string;
  stored_results : option (list dict)
}.

Definition initial_state : app_state :=
  {| page := None;
     data := {| merged_answers := None; question_paper_json := None;
                grading_scheme_json := None; user_notes := None |};
     all_ocr_results := None; current_file_name := None;
     qp_file_name := None; gs_file_name := None; stored_results := None |}.

Definition set_page (p : string) (s : app_state) : app_state :=
  {| page := Some p; data := data s; all_ocr_results := all_ocr_results s;
     current_file_name := current_file_name s; qp_file_name := qp_file_name s;
     gs_file_name := gs_file_name s; stored_results := stored_results s |}.

Definition set_data (d : session_state) (s : app_state) : app_state :=
  {| page := page s; data := d; all_ocr_results := all_ocr_results s;
     current_file_name := current_file_name s; qp_file_name := qp_file_name s;
     gs_file_name := gs_file_name s; stored_results := stored_results s |}.

Definition set_all_ocr_results (rs : list extraction) (s : app_state)
  : app_state :=
  {| page := page s; data := data s; all_ocr_results := Some rs;
     current_file_name := current_file_name s; qp_file_name := qp_file_name s;
     gs_file_name := gs_file_name s; stored_results := stored_results s |}.

Definition set_current_file_name (name : string) (s : app_state) : app_state :=
  {| page := page s; data := data s; all_ocr_results := all_ocr_results s;
     current_file_name := Some name; qp_file_name := qp_file_name s;
     gs_file_name := gs_file_name s; stored_results := stored_results s |}.

Definition set_qp_file_name (name : string) (s : app_state) : app_state :=
  {| page := page s; data := data s; all_ocr_results := all_ocr_results s;
     current_file_name := current_file_name s; qp_file_name := Some name;
     gs_file_name := gs_file_name s; stored_results := stored_results s |}.

Definition set_gs_file_name (name : string) (s : app_state) : app_state :=
  {| page := page s; data := data s; all_ocr_results := all_ocr_results s;
     current_file_name := current_file_name s; qp_file_name := qp_file_name s;
     gs_file_name := Some name; stored_results := stored_results s |}.

Definition set_stored_results (rs : list dict) (s : app_state) : app_state :=
  {| page := page s; data := data s; all_ocr_results := all_ocr_results s;
     current_file_name := current_file_name s; qp_file_name := qp_file_name s;
     gs_file_name := gs_file_name s; stored_results := Some rs |}.

Definition set_merged_answers (m : dict) (d : session_state) : session_state :=
  {| merged_answers := Some m; question_paper_json := question_paper_json d;
     grading_scheme_json := grading_scheme_json d; user_notes := user_notes d |}.

Definition set_question_paper_json (e : extraction) (d : session_state)
  : session_state :=
  {| merged_answers := merged_answers d; question_paper_json := Some e;
     grading_scheme_json := grading_scheme_json d; user_notes := user_notes d |}.

Definition set_grading_scheme_json (e : extraction) (d : session_state)
  : session_state :=
  {| merged_answers := merged_answers d;
     question_paper_json := question_paper_json d;
     grading_scheme_json := Some e; user_notes := user_notes d |}.

Definition set_user_notes (v : value) (d : session_state) : session_state :=
  {| merged_answers := merged_answers d;
     question_paper_json := question_paper_json d;
     grading_scheme_json := grading_scheme_json d; user_notes := Some v |}.

Section Pages.
Variable num_repr : Qc → string.
Variable generate_content : nat → dict → result string.
Variable json_loads : string → option reply.
Variable ask : string → result string.
Variable loads : string → option json.
Variable qp_prompt gs_prompt : string.
(** Whether sorting the merged answers for display raises ([float] and
    [sorted] are not modelled). *)
Variable display_raises : dict → bool.

(** [ocr_image], given what reading the image and calling the model
    yield. *)
Definition ocr_image (response : result string) : result json :=
  text ←! response;
  match loads text with
  | Some j => Ok j
  | None => Ok (JDict {[ "text" := VStr text ]})
  end.

(** The [for i in range(total_pages)] loop of [ocr_page]: a page whose OCR
    raises is reported and skipped, a page that cannot be rendered ends the
    loop with its exception. *)
Fixpoint ocr_pages (pages : list page_run) (all_results : list extraction)
  : result (list extraction) :=
  match pages with
  | [] => Ok all_results
  | RenderFails :: _ => Raise "render"
  | Rendered response :: rest =>
      match ocr_image response with
      | Ok ocr_result =>
          ocr_pages rest (all_results ++ [to_extraction ocr_result])
      | Raise _ => ocr_pages rest all_results
      end
  end.

(** The [try] block of [ocr_page]; its [except] only reports. *)
Definition process_upload (sc : scan) (s : app_state) : app_state :=
  match (pages ←! sc; ocr_pages pages []) with
  | Raise _ => s
  | Ok all_results =>
      let s := set_all_ocr_results all_results s in
      match merge_ocr_results num_repr all_results with
      | Raise _ => s
      | Ok merged => set_data (set_merged_answers merged (data s)) s
      end
  end.

Definition next_button (c : click) (s : app_state) : app_state :=
  match c with
  | ClickNext => set_page "additional_materials" s
  | _ => s
  end.

Definition ocr_page (inp : run_input) (s : app_state) : app_state :=
  let s := match all_ocr_results s with
           | Some _ => s
           | None => set_all_ocr_results [] s
           end in
  let s := match merged_answers (data s) with
           | Some _ => s
           | None => set_data (set_merged_answers ∅ (data s)) s
           end in
  match uploaded_file inp with
  | Some (name, sc) =>
      if decide (current_file_name s = Some name) then
        if display_raises (default ∅ (merged_answers (data s))) then s
        else next_button (clicked inp) s
      else
        next_button (clicked inp)
          (process_upload sc (set_current_file_name name s))
  | None => next_button (clicked inp) s
  end.

Definition has_grading_inputs (d : session_state) : bool :=
  bool_decide (is_Some (merged_answers d))
  && bool_decide (is_Some (question_paper_json d))
  && bool_decide (is_Some (grading_scheme_json d)).

Definition additional_materials_page (inp : run_input) (s : app_state)
  : app_state :=
  let s :=
    match question_paper inp with
    | Some (name, document) =>
        if decide (qp_file_name s = Some name) then s
        else
          let s := set_qp_file_name name s in
          set_data
            (set_question_paper_json
               (to_extraction
                  (process_question_paper_pdf ask loads qp_prompt document))
               (data s)) s
    | None => s
    end in
  let s :=
    match grading_scheme inp with
    | Some (name, document) =>
        if decide (gs_file_name s = Some name) then s
        else
          let s := set_gs_file_name name s in
          set_data
            (set_grading_scheme_json
               (to_extraction
                  (process_grading_scheme_pdf ask loads gs_prompt document))
               (data s)) s
    | None => s
    end in
  let s := set_data (set_user_notes (VStr (notes_area inp)) (data s)) s in
  match clicked inp with
  | ClickBack => set_page "ocr" s
  | ClickGradeAnswers =>
      if has_grading_inputs (data s) then set_page "grading" s else s
  | _ => s
  end.

Definition grading_buttons (c : click) (s : app_state) : app_state :=
  match c with
  | ClickBackToMaterials => set_page "additional_materials" s
  | ClickBackToOcr => set_page "ocr" s
  | _ => s
  end.

(** The whole of [grading_page]: grade once, show the header and the
    tabs, then the two buttons.  The missing-data message returns before
    the buttons, and a header that raises ends the run before them. *)
Definition grading_page_run (inp : run_input) (s : app_state) : app_state :=
  let graded :=
    match stored_results s with
    | Some _ => Some s
    | None =>
        match grading_results generate_content json_loads num_repr (data s) with
        | Some results => Some (set_stored_results results s)
        | None => None
        end
    end in
  match graded with
  | None => s
  | Some s =>
      match total_score (default [] (stored_results s)) with
      | Raise _ => s
      | Ok _ => grading_buttons (clicked inp) s
      end
  end.

Definition main (s : app_state) (inp : run_input) : app_state :=
  let s := match page s with
           | Some _ => s
           | None => set_page "ocr" s
           end in
  match page s with
  | Some "ocr" => ocr_page inp s
  | Some "additional_materials" => additional_materials_page inp s
  | Some "grading" => grading_page_run inp s
  | _ => s
  end.

(** The state after a sequence of runs. *)
Definition runs (s : app_state) (inputs : list run_input) : app_state :=
  foldl main s inputs.

End Pages.

(** The fragments a page of an answer sheet contributes: the records of
    its OCR response when that decodes to a list, none otherwise. *)
Definition page_items (loads : string → option json) (p : page_run)
  : list dict :=
  match p with
  | Rendered (Ok text) =>
      match loads text with
      | Some (JList items) => items
      | _ => []
      end
  | _ => []
  end.

Definition rendered (p : page_run) : bool :=
  match p with RenderFails => false | Rendered _ => true end.

Definition known_page (p : option string) : bool :=
  match p with
  | Some "ocr" | Some "additional_materials" | Some "grading" => true
  | _ => false
  end.

(** What holds of the state between runs: the page is one of the three,
    and the grading page is only ever shown with the three inputs stored. *)
Definition page_inv (s : app_state) : Prop :=
  (page s = None ∨ known_page (page s) = true)
  ∧ (page s = Some "grading" → has_grading_inputs (data s) = true).

(** The text of a PDF whose pages read [texts]: each page followed by a
    blank line. *)
Definition pages_text (texts : list string) : string :=
  foldr (fun t rest => (t ++ nl2) ++ rest) "" texts.

Definition payload_text (payload : dict) : string :=
  match get payload "text" (VStr "") with
  | VStr s => s
  | _ => ""
  end.

Definition text_payloads (payloads : list dict) : bool :=
  forallb (fun payload => is_text (get payload "text" (VStr ""))) payloads.

Definition non_empty (s : string) : bool := negb (String.eqb s "").

(** ** Further sample data *)

Definition digits : list nat := seq 0 10.

Definition sample_ask : string → result string := fun _ => Ok "response".

Definition sample_loads : string → option json :=
  fun _ => Some (JList [question "1" "Q1" 10]).

Definition never_raises : dict → bool := fun _ => false.

Definition no_input : run_input :=
  {| uploaded_file := None; question_paper := None; grading_scheme := None;
     notes_area := ""; clicked := NoClick |}.

Definition click_only (c : click) : run_input :=
  {| uploaded_file := None; question_paper := None; grading_scheme := None;
     notes_area := ""; clicked := c |}.

Definition one_page_pdf : pdf := Ok [Ok "Q1. Define a basis. (10 marks)"].

Definition materials_and_grade : run_input :=
  {| uploaded_file := None;
     question_paper := Some ("qp.pdf", one_page_pdf);
     grading_scheme := Some ("gs.pdf", one_page_pdf);
     notes_area := "be lenient"; clicked := ClickGradeAnswers |}.

Definition upload_sheet (name : string) (sc : scan) : run_input :=
  {| uploaded_file := Some (name, sc); question_paper := None;
     grading_scheme := None; notes_area := ""; clicked := NoClick |}.

(** A session on the OCR page that has processed [sheet.pdf]. *)
Definition processed_state : app_state :=
  {| page := Some "ocr";
     data := {| merged_answers := Some {[ "1" := VStr "an answer" ]};
                question_paper_json := None; grading_scheme_json := None;
                user_notes := None |};
     all_ocr_results := Some [Records [frag "1" "an answer"]];
     current_file_name := Some "sheet.pdf";
     qp_file_name := None; gs_file_name := None; stored_results := None |}.

(** A session on the grading page whose question paper was unreadable. *)
Definition stuck_state : app_state :=
  {| page := Some "grading";
     data := {| merged_answers := Some ∅;
                question_paper_json := Some NotAList;
                grading_scheme_json := Some (Records []);
                user_notes := Some (VStr "") |};
     all_ocr_results := Some []; current_file_name := None;
     qp_file_name := Some "qp.pdf"; gs_file_name := Some "gs.pdf";
     stored_results := None |}.

(** A session that has been graded. *)
Definition graded_state : app_state :=
  {| page := Some "grading";
     data := session ∅ [question "1" "Q1" 10] [] None;
     all_ocr_results := Some []; current_file_name := None;
     qp_file_name := Some "qp.pdf"; gs_file_name := Some "gs.pdf";
     stored_results := Some two_requests |}.

(** * Properties *)

Lemma append_nil_r (s : string) : s ++ "" = s.
Proof.
  induction s as [|c s IH]; [done|].
  change (String c (s ++ "") = String c s). by rewrite IH.
Qed.

Lemma append_assoc (s t u : string) : (s ++ t) ++ u = s ++ (t ++ u).
Proof.
  induction s as [|c s IH]; [done|].
  change (String c ((s ++ t) ++ u) = String c (s ++ (t ++ u))). by rewrite IH.
Qed.

Section MergerFacts.
Variable num_repr : Qc → string.

Lemma frag_label label text : label_of num_repr (frag label text) = label.
Proof. reflexivity. Qed.

Lemma merge_items_app st xs ys :
  merge_items num_repr st (xs ++ ys)
  = bind (merge_items num_repr st xs) (fun st' => merge_items num_repr st' ys).
Proof.
  revert st. induction xs as [|x xs IH]; intros st; simpl; [done|].
  destruct (merge_item num_repr st x) as [st'|msg]; simpl; [apply IH | done].
Qed.

Lemma merge_pages_fragments st all_results :
  merge_pages num_repr st all_results
  = merge_items num_repr st (fragments all_results).
Proof.
  revert st. induction all_results as [|p ps IH]; intros st; simpl; [done|].
  destruct p as [items|]; simpl; [|apply IH].
  rewrite merge_items_app.
  destruct (merge_items num_repr st items) as [st'|msg]; simpl;
    [apply IH | done].
Qed.

Lemma merge_inv_init : merge_inv (∅, None).
Proof. split; [apply map_Forall_empty | intros l; discriminate]. Qed.

(** On a string answer one turn of the loop never raises: it writes the
    joined text under the target key and remembers that key. *)
Lemma merge_item_text m last item a :
  merge_inv (m, last) →
  answer_of item = VStr a →
  merge_item num_repr (m, last) item
  = Ok (<[target num_repr last item
          := VStr (joined (m !! target num_repr last item) a)]> m,
        Some (target num_repr last item)).
Proof.
  intros [Htxt Hlast] Ha. unfold merge_item, target.
  fold (label_of num_repr item). fold (answer_of item). rewrite Ha.
  unfold is_marker. simpl in *.
  assert (Hold : ∀ k, m !! k = None ∨ ∃ t, m !! k = Some (VStr t)).
  { intros k. destruct (m !! k) as [v|] eqn:E; [right | by left].
    specialize (Htxt k v E). destruct v; try discriminate. by eexists. }
  destruct (String.eqb (lower (label_of num_repr item)) "contd") eqn:Em,
    last as [l|]; simpl.
  2-4: destruct (Hold (label_of num_repr item)) as [E|[t E]]; rewrite E;
    reflexivity.
  destruct (Hlast l eq_refl) as [v Hv].
  destruct (Hold l) as [E|[t E]]; [congruence|].
  unfold get. rewrite E. reflexivity.
Qed.

Lemma merge_inv_step m last item a :
  merge_inv (m, last) →
  merge_inv (<[target num_repr last item
               := VStr (joined (m !! target num_repr last item) a)]> m,
             Some (target num_repr last item)).
Proof.
  intros [Htxt Hlast]. split; simpl in *.
  - apply map_Forall_insert_2; done.
  - intros l [= <-]. rewrite lookup_insert_eq. by eexists.
Qed.

Lemma merge_items_text st items :
  merge_inv st →
  text_answers items = true →
  merge_items num_repr st items = Ok (foldl (text_step num_repr) st items)
  ∧ merge_inv (foldl (text_step num_repr) st items).
Proof.
  revert st. induction items as [|item items IH]; intros [m last] Hinv Htxt;
    [done|].
  apply andb_true_iff in Htxt as [Hitem Hrest].
  destruct (answer_of item) as [| |a] eqn:Ha; try discriminate.
  cbn [merge_items foldl].
  rewrite (merge_item_text _ _ _ a Hinv Ha).
  assert (Hstep : text_step num_repr (m, last) item
                  = (<[target num_repr last item
                       := VStr (joined (m !! target num_repr last item) a)]> m,
                     Some (target num_repr last item))).
  { unfold text_step, text_of. by rewrite Ha. }
  rewrite Hstep. cbn [bind].
  apply IH; [by apply merge_inv_step | done].
Qed.

Lemma target_other L last item :
  last ≠ Some L → label_of num_repr item ≠ L → target num_repr last item ≠ L.
Proof.
  intros Hlast Hlabel. unfold target. simpl.
  destruct (is_marker _); [|done].
  destruct last as [l|]; simpl; [congruence | done].
Qed.

(** Records filed under other labels leave the entry of [L] alone. *)
Lemma text_steps_other L st items :
  st.2 ≠ Some L →
  Forall (fun item => label_of num_repr item ≠ L) items →
  (foldl (text_step num_repr) st items).1 !! L = st.1 !! L
  ∧ (foldl (text_step num_repr) st items).2 ≠ Some L.
Proof.
  revert st. induction items as [|item items IH]; intros [m last] Hlast Hall;
    simpl in *; [done|].
  apply Forall_cons in Hall as [Hitem Hall].
  pose proof (target_other L last item Hlast Hitem) as Hne.
  destruct (IH (text_step num_repr (m, last) item)) as [IH1 IH2];
    [simpl; congruence | done |].
  split; [|done]. rewrite IH1. simpl. by rewrite lookup_insert_ne.
Qed.


Lemma merge_text_fragments all_results :
  text_answers (fragments all_results) = true →
  merge_ocr_results num_repr all_results
  = Ok (foldl (text_step num_repr) (∅, None) (fragments all_results)).1.
Proof.
  intros Htxt. unfold merge_ocr_results. rewrite merge_pages_fragments.
  by destruct (merge_items_text (∅, None) _ merge_inv_init Htxt) as [-> _].
Qed.

(** C2. On the single page [("1","a"), (CONT,"b"), ("2","c")], with CONT
    any spelling of the continuation marker, the merge returns exactly the
    mapping with "1" bound to "a", a blank line, "b" and "2" bound to "c":
    the continuation text is appended to the label seen before it and the
    fresh label starts its own entry. *)
Theorem merge_continuation_example cont :
  is_marker cont = true →
  merge_ocr_results num_repr
    [Records [frag "1" "a"; frag cont "b"; frag "2" "c"]]
  = Ok {[ "1" := VStr (("a" ++ nl2) ++ "b"); "2" := VStr "c" ]}.
Proof.
  intros Hcont. rewrite merge_text_fragments by reflexivity.
  cbn [fragments foldl app]. f_equal.
  assert (H1 : target num_repr None (frag "1" "a") = "1") by reflexivity.
  assert (H2 : target num_repr (Some "1") (frag cont "b") = "1").
  { unfold target. rewrite frag_label. cbn zeta. by rewrite Hcont. }
  assert (H3 : target num_repr (Some "1") (frag "2" "c") = "2") by reflexivity.
  unfold text_step; cbn [fst snd]. rewrite H1. cbn [fst snd].
  rewrite H2. cbn [fst snd]. rewrite H3.
  rewrite lookup_empty, !lookup_insert_eq, insert_insert_eq.
  rewrite lookup_insert_ne by done. rewrite lookup_empty.
  rewrite insert_insert_ne by done. by rewrite insert_empty.
Qed.


Lemma text_answers_app (xs ys : list dict) :
  text_answers (xs ++ ys) = text_answers xs && text_answers ys.
Proof. apply forallb_app. Qed.

Lemma text_step_fresh_label st item :
  is_marker (label_of num_repr item) = false →
  text_step num_repr st item
  = (<[label_of num_repr item
       := VStr (joined (st.1 !! label_of num_repr item) (text_of item))]> st.1,
     Some (label_of num_repr item)).
Proof. intros HL. unfold text_step, target. cbn zeta. by rewrite HL. Qed.

Lemma merge_item_text_step st item :
  merge_inv st →
  is_text (answer_of item) = true →
  merge_item num_repr st item = Ok (text_step num_repr st item).
Proof.
  intros Hinv Htxt. destruct st as [m last].
  destruct (answer_of item) as [| |a] eqn:Ha; try discriminate.
  rewrite (merge_item_text m last item a Hinv Ha).
  unfold text_step, text_of. by rewrite Ha.
Qed.

(** After [L], continuation records extend the text of [L] until the next
    label. *)
Lemma text_steps_continued L st items t :
  st.2 = Some L →
  st.1 !! L = Some (VStr t) →
  Forall (fun item => label_of num_repr item ≠ L) items →
  (foldl (text_step num_repr) st items).1 !! L
  = Some (VStr (t ++ continued num_repr items)).
Proof.
  revert st t. induction items as [|item items IH]; intros [m last] t Hlast Ht Hall;
    cbn [fst snd] in *.
  - cbn. by rewrite append_nil_r.
  - apply Forall_cons in Hall as [Hitem Hall]. cbn [foldl continued].
    unfold text_step at 2. unfold target. cbn [fst snd]. cbn zeta.
    destruct (is_marker (label_of num_repr item)) eqn:Hm.
    + rewrite Hlast. unfold default, from_option, id. rewrite Ht. cbn [joined].
      rewrite (IH _ ((t ++ nl2) ++ text_of item)); [|done| |done].
      * by rewrite !append_assoc.
      * cbn [fst]. apply lookup_insert_eq.
    + destruct (text_steps_other L
                  (<[label_of num_repr item
                     := VStr (joined (m !! label_of num_repr item) (text_of item))]> m,
                   Some (label_of num_repr item)) items) as [-> _];
        [cbn; congruence | done |].
      cbn [fst]. rewrite lookup_insert_ne by done. by rewrite Ht, append_nil_r.
Qed.

(** C7. When a label is met, then an unrelated label, then the first
    label again (whatever other fragments come before, between and after,
    as long as none of them is filed under that label), the merge files
    both texts under the one entry of the label: the first text, a blank
    line, the second text, and after them only what continuation fragments
    directly following the second occurrence add.  Filing the second
    occurrence adds no key to the mapping. *)
Theorem resumed_label_joined all_results (pre : list dict) x first mid y post :
  fragments all_results = (pre ++ x :: first :: mid ++ y :: post)%list →
  label_of num_repr y = label_of num_repr x →
  is_marker (label_of num_repr x) = false →
  is_marker (label_of num_repr first) = false →
  Forall (fun item => label_of num_repr item ≠ label_of num_repr x)
    (pre ++ first :: mid ++ post) →
  text_answers (fragments all_results) = true →
  ∃ before after m,
    merge_items num_repr (∅, None) (pre ++ x :: first :: mid) = Ok before
    ∧ merge_item num_repr before y = Ok after
    ∧ dom after.1 = dom before.1
    ∧ merge_ocr_results num_repr all_results = Ok m
    ∧ m !! label_of num_repr x
      = Some (VStr (((text_of x ++ nl2) ++ text_of y)
                    ++ continued num_repr post)).
Proof.
  intros Hfr Hy Hx Hfirst Hlabels Tall.
  set (L := label_of num_repr x) in *.
  apply Forall_app in Hlabels as [Hpre Hmid].
  apply Forall_cons in Hmid as [Hfst Hmid].
  apply Forall_app in Hmid as [Hmid Hpost].
  assert (Hsplit : (pre ++ x :: first :: mid ++ y :: post)%list
                   = ((pre ++ x :: first :: mid) ++ y :: post)%list).
  { by rewrite <- app_assoc. }
  rewrite merge_text_fragments by done.
  rewrite Hfr, Hsplit in Tall |- *.
  rewrite text_answers_app in Tall. apply andb_true_iff in Tall as [Tbefore Ty].
  apply andb_true_iff in Ty as [Ty Tpost].
  destruct (merge_items_text (∅, None) _ merge_inv_init Tbefore) as [Hb Hinv].
  rewrite foldl_app. cbn [foldl].
  set (before := foldl (text_step num_repr) (∅, None)
                   (pre ++ x :: first :: mid)) in *.
  assert (Hbefore : before.1 !! L = Some (VStr (text_of x))).
  { subst before. rewrite foldl_app. cbn [foldl].
    destruct (text_steps_other L (∅, None) pre) as [H0 _]; [done..|].
    rewrite (text_step_fresh_label _ x) by done. fold L. rewrite H0.
    cbn [fst]. rewrite lookup_empty. cbn [joined].
    set (st1 := (<[L:=VStr (text_of x)]>
                   (foldl (text_step num_repr) (∅, None) pre).1, Some L)).
    rewrite (text_step_fresh_label st1 first) by done.
    destruct (text_steps_other L
                (<[label_of num_repr first
                   := VStr (joined (st1.1 !! label_of num_repr first)
                              (text_of first))]> st1.1,
                 Some (label_of num_repr first)) mid) as [H2 _];
      [cbn; congruence | done |].
    rewrite H2. cbn [fst]. rewrite lookup_insert_ne by done.
    apply lookup_insert_eq. }
  exists before, (text_step num_repr before y). eexists.
  split; [done|]. split; [by apply merge_item_text_step|].
  rewrite (text_step_fresh_label before y) by (by rewrite Hy).
  rewrite Hy. fold L. cbn [fst]. rewrite Hbefore. cbn [joined].
  split; [|split; [done|]].
  - rewrite dom_insert_L.
    apply (elem_of_dom_2 (D := gset string)) in Hbefore.
    apply subseteq_union_1_L. by apply singleton_subseteq_l.
  - apply text_steps_continued; [done | apply lookup_insert_eq | done].
Qed.

Lemma merge_item_with_sentinels st item :
  merge_item num_repr st (with_sentinels item) = merge_item num_repr st item.
Proof.
  assert (Hq : get (with_sentinels item) "question_number" (VStr "Unknown")
               = get item "question_number" (VStr "Unknown")).
  { unfold with_sentinels, get at 1. by rewrite lookup_insert_eq. }
  assert (Ha : get (with_sentinels item) "answer" (VStr "No answer extracted")
               = get item "answer" (VStr "No answer extracted")).
  { unfold with_sentinels, get at 1.
    rewrite lookup_insert_ne by done. by rewrite lookup_insert_eq. }
  unfold merge_item. by rewrite Hq, Ha.
Qed.

Lemma merge_items_with_sentinels st items :
  merge_items num_repr st (with_sentinels <$> items)
  = merge_items num_repr st items.
Proof.
  revert st. induction items as [|item items IH]; intros st; [done|].
  cbn [fmap list_fmap merge_items]. rewrite merge_item_with_sentinels.
  destruct (merge_item num_repr st item) as [st'|msg]; cbn [bind];
    [apply IH | done].
Qed.

(** C10. A fragment record without a [question_number] is filed under the
    literal label "Unknown" and one without an [answer] contributes the
    literal text "No answer extracted": the merge cannot tell a scan with
    missing fields from the scan in which the two sentinels are written
    out, errors included, and a record with neither field yields the
    entry "Unknown" bound to "No answer extracted". *)
Theorem missing_fields_are_sentinels all_results :
  merge_ocr_results num_repr all_results
  = merge_ocr_results num_repr (page_with_sentinels <$> all_results)
  ∧ merge_ocr_results num_repr [Records [∅]]
    = Ok {[ "Unknown" := VStr "No answer extracted" ]}.
Proof.
  split; [|reflexivity].
  unfold merge_ocr_results. f_equal. generalize (∅ : dict, None : option string).
  induction all_results as [|p ps IH]; intros st; [done|].
  cbn [fmap list_fmap merge_pages].
  assert (Hp : merge_page num_repr st (page_with_sentinels p)
               = merge_page num_repr st p).
  { destruct p; [apply merge_items_with_sentinels | done]. }
  rewrite Hp. destruct (merge_page num_repr st p); cbn [bind]; [apply IH|done].
Qed.

End MergerFacts.

Section AssemblerFacts.
Variable num_repr : Qc → string.

Lemma assemble_filter student_answers gs_lookup professor_prompt question_paper :
  assemble num_repr student_answers gs_lookup professor_prompt question_paper
  = map (fun question =>
           question_data_of student_answers gs_lookup professor_prompt
             (q_num_of num_repr question) question)
        (List.filter (has_label num_repr) question_paper).
Proof.
  induction question_paper as [|question rest IH]; [done|].
  cbn [assemble List.filter]. unfold has_label at 1.
  fold (q_num_of num_repr question).
  destruct (String.eqb (q_num_of num_repr question) ""); cbn [negb map];
    by rewrite IH.
Qed.

Lemma gs_lookup_other q grading_scheme (m : dict) :
  Forall (fun item => rubric_key num_repr item ≠ q) grading_scheme →
  foldl (fun m item =>
           <[py_str num_repr (get item "question_number" VNone)
             := get item "grading_scheme" (VStr "")]> m) m grading_scheme !! q
  = m !! q.
Proof.
  revert m. induction grading_scheme as [|item rest IH]; intros m Hall; [done|].
  apply Forall_cons in Hall as [Hitem Hrest]. cbn [foldl].
  rewrite IH by done. by rewrite lookup_insert_ne.
Qed.

Lemma gs_lookup_unmatched q grading_scheme :
  Forall (fun item => rubric_key num_repr item ≠ q) grading_scheme →
  gs_lookup_of num_repr grading_scheme !! q = None.
Proof. intros H. unfold gs_lookup_of. by rewrite gs_lookup_other. Qed.

Lemma prepare_session answers question_paper grading_scheme notes :
  prepare_grading_data num_repr
    (session answers question_paper grading_scheme notes)
  = Some (assemble num_repr answers (gs_lookup_of num_repr grading_scheme)
            (default (VStr "") notes) question_paper).
Proof. reflexivity. Qed.

Lemma question_data_fields student_answers gs_lookup professor_prompt q
    question :
  let r :=
    question_data_of student_answers gs_lookup professor_prompt q question in
  r !! "question_num" = Some (VStr q)
  ∧ r !! "marks" = Some (get question "marks" (num 5))
  ∧ r !! "student_answer" = Some (get student_answers q (VStr ""))
  ∧ r !! "grading_scheme" = Some (get gs_lookup q (VStr ""))
  ∧ r !! "marks_awarded" = None.
Proof. repeat split. Qed.

(** C4, as the code has it. A question-paper record that has a question
    number but no [marks] field is assembled into a request whose marks
    are 5. *)
Theorem missing_marks_fall_back_to_five answers question grading_scheme notes :
  has_label num_repr question = true →
  question !! "marks" = None →
  ∃ req,
    prepare_grading_data num_repr
      (session answers [question] grading_scheme notes)
    = Some [req]
    ∧ req !! "marks" = Some (num 5).
Proof.
  intros Hlabel Hmarks. rewrite prepare_session, assemble_filter.
  cbn [List.filter]. rewrite Hlabel. cbn [map]. eexists. split; [done|].
  destruct (question_data_fields answers (gs_lookup_of num_repr grading_scheme)
              (default (VStr "") notes) (q_num_of num_repr question) question)
    as (_ & -> & _).
  unfold get. by rewrite Hmarks.
Qed.

(** C6, as the code has it. A question with a non-empty question number is
    assembled into a request at its place among the kept questions,
    whatever the rubric and the merged answers hold; its [student_answer]
    is the empty string when the merged answers have no entry under that
    exact number, and its [grading_scheme] is the empty string when no
    rubric record is keyed by that exact number. *)
Theorem unmatched_label_defaults answers (before after : list dict) question
    grading_scheme notes :
  has_label num_repr question = true →
  ∃ reqs req,
    prepare_grading_data num_repr
      (session answers (before ++ question :: after) grading_scheme notes)
    = Some reqs
    ∧ reqs !! length (List.filter (has_label num_repr) before) = Some req
    ∧ req !! "question_num" = Some (VStr (q_num_of num_repr question))
    ∧ (answers !! q_num_of num_repr question = None →
       req !! "student_answer" = Some (VStr ""))
    ∧ (Forall (fun item => rubric_key num_repr item ≠ q_num_of num_repr question)
         grading_scheme →
       req !! "grading_scheme" = Some (VStr "")).
Proof.
  intros Hlabel. rewrite prepare_session, assemble_filter.
  rewrite List.filter_app. cbn [List.filter]. rewrite Hlabel.
  rewrite map_app. cbn [map].
  eexists _, _. split; [done|].
  split.
  { rewrite lookup_app_r by (by rewrite length_map).
    rewrite length_map, Nat.sub_diag. reflexivity. }
  split; [done|]. split.
  - intros Hnone. unfold question_data_of, get. rewrite Hnone. done.
  - intros Hnone. apply gs_lookup_unmatched in Hnone.
    unfold question_data_of, get. rewrite Hnone. done.
Qed.

End AssemblerFacts.

Section GradingLoop.
Variable generate_content : nat → dict → result string.
Variable json_loads : string → option reply.

Lemma grade_from_imap i (grading_data : list dict) :
  grade_from generate_content json_loads i grading_data
  = imap (fun j => grade_one generate_content json_loads (i + j)) grading_data.
Proof.
  revert i. induction grading_data as [|q rest IH]; intros i; [done|].
  cbn [grade_from imap]. rewrite Nat.add_0_r. f_equal.
  rewrite IH. apply imap_ext. intros j x _. cbn. f_equal. lia.
Qed.

Lemma grade_from_length i (grading_data : list dict) :
  length (grade_from generate_content json_loads i grading_data)
  = length grading_data.
Proof. rewrite grade_from_imap. apply length_imap. Qed.

Lemma grade_from_lookup (grading_data : list dict) j :
  grade_from generate_content json_loads 0 grading_data !! j
  = grade_one generate_content json_loads j <$> grading_data !! j.
Proof. rewrite grade_from_imap. apply list_lookup_imap. Qed.

Lemma failed_grading_fields question_data msg :
  let r := failed_grading question_data msg in
  r !! "marks_awarded" = Some (num 0)
  ∧ r !! "explanation" = Some (VStr "Error during grading")
  ∧ r !! "error" = Some (VStr msg)
  ∧ ∀ key, key ∉ ["error"; "marks_awarded"; "explanation"] →
           r !! key = question_data !! key.
Proof.
  cbn zeta. unfold failed_grading.
  do 3 (split; [by apply lookup_union_Some_l|]).
  intros key Hkey. apply lookup_union_r.
  rewrite !not_elem_of_cons in Hkey. destruct Hkey as (? & ? & ? & _).
  rewrite !lookup_insert_ne by done. by apply lookup_singleton_ne.
Qed.

Lemma parse_fallback_fields question_data text :
  let r := parse_fallback text ∪ question_data in
  r !! "error" = Some (VStr "Failed to parse grading results")
  ∧ r !! "raw_response" = Some (VStr text)
  ∧ ∀ key, key ∉ ["error"; "raw_response"] → r !! key = question_data !! key.
Proof.
  cbn zeta. unfold parse_fallback.
  do 2 (split; [by apply lookup_union_Some_l|]).
  intros key Hkey. apply lookup_union_r.
  rewrite !not_elem_of_cons in Hkey. destruct Hkey as (? & ? & _).
  rewrite !lookup_insert_ne by done. by apply lookup_singleton_ne.
Qed.

End GradingLoop.

Section GradingFacts.
Variable generate_content : nat → dict → result string.
Variable json_loads : string → option reply.

(** C1, as the code has it. The grading loop returns one result per
    request, each built from its own request and the outcome of its own
    call, so the results at positions other than [k] are the same whatever
    happens at [k].  When the call for request [k] raises (a time-out
    included) or answers with JSON that is not an object, result [k] is
    the request with [marks_awarded] 0, the placeholder explanation and
    [error] set to the failure description.  When the payload cannot be
    parsed, [grade_answer] does not raise: result [k] is the request with
    [error] and [raw_response] added and nothing else changed, so no
    [marks_awarded] and no explanation are substituted. *)
Theorem failing_request_is_isolated (grading_data : list dict) k question_data
    (other_content : nat → dict → result string) :
  grading_data !! k = Some question_data →
  (∀ j q, j ≠ k → other_content j q = generate_content j q) →
  let results := grade_from generate_content json_loads 0 grading_data in
  length results = length grading_data
  ∧ (∀ j q, grading_data !! j = Some q →
            results !! j = Some (grade_one generate_content json_loads j q))
  ∧ (∀ j, j ≠ k →
          grade_from other_content json_loads 0 grading_data !! j = results !! j)
  ∧ (∀ msg,
       grade_answer generate_content json_loads k question_data = Raise msg
       ∨ (∃ tname,
            grade_answer generate_content json_loads k question_data
            = Ok (NotMapping tname)
            ∧ msg = "'" ++ tname ++ "' object is not a mapping") →
       ∃ r, results !! k = Some r
            ∧ r !! "marks_awarded" = Some (num 0)
            ∧ r !! "explanation" = Some (VStr "Error during grading")
            ∧ r !! "error" = Some (VStr msg)
            ∧ ∀ key, key ∉ ["error"; "marks_awarded"; "explanation"] →
                     r !! key = question_data !! key)
  ∧ (∀ text,
       generate_content k question_data = Ok text →
       json_loads text = None →
       ∃ r, results !! k = Some r
            ∧ r !! "error" = Some (VStr "Failed to parse grading results")
            ∧ r !! "raw_response" = Some (VStr text)
            ∧ ∀ key, key ∉ ["error"; "raw_response"] →
                     r !! key = question_data !! key).
Proof.
  intros Hk Hother results. subst results.
  split; [apply grade_from_length|].
  split. { intros j q Hj. by rewrite grade_from_lookup, Hj. }
  split.
  { intros j Hj. rewrite !grade_from_lookup.
    destruct (grading_data !! j) as [q|]; [|done]. cbn. f_equal.
    unfold grade_one, grade_answer. by rewrite Hother. }
  split.
  - intros msg Hfail. exists (failed_grading question_data msg).
    split; [|apply (failed_grading_fields question_data msg)].
    rewrite grade_from_lookup, Hk. cbn. f_equal. unfold grade_one.
    destruct Hfail as [-> | (tname & -> & ->)]; done.
  - intros text Htext Hparse. exists (parse_fallback text ∪ question_data).
    split; [|apply (parse_fallback_fields question_data text)].
    rewrite grade_from_lookup, Hk. cbn. f_equal.
    unfold grade_one, grade_answer. rewrite Htext. cbn. by rewrite Hparse.
Qed.

End GradingFacts.

(** ** Total score *)






(** ** The whole grading path *)

Section PipelineFacts.
Variable num_repr : Qc → string.
Variable generate_content : nat → dict → result string.
Variable json_loads : string → option reply.

(** C5, as the code has it. Each question with a non-empty question number
    yields exactly one request, in question-paper order, and a question
    whose number is empty or absent yields none; when at least one request
    is assembled, the grading loop stores exactly one result per request,
    result [i] being built from request [i] and the [i]-th call. *)
Theorem one_request_per_labelled_question answers question_paper grading_scheme
    notes :
  existsb (has_label num_repr) question_paper = true →
  ∃ reqs results,
    prepare_grading_data num_repr
      (session answers question_paper grading_scheme notes) = Some reqs
    ∧ reqs = map (fun question =>
                    question_data_of answers (gs_lookup_of num_repr grading_scheme)
                      (default (VStr "") notes) (q_num_of num_repr question)
                      question)
                 (List.filter (has_label num_repr) question_paper)
    ∧ grading_results generate_content json_loads num_repr
        (session answers question_paper grading_scheme notes) = Some results
    ∧ results = imap (grade_one generate_content json_loads) reqs
    ∧ length reqs = length (List.filter (has_label num_repr) question_paper)
    ∧ length results = length reqs.
Proof.
  intros Hsome. unfold grading_results.
  rewrite prepare_session, assemble_filter.
  set (kept := List.filter (has_label num_repr) question_paper).
  assert (Hkept : kept ≠ []).
  { apply existsb_exists in Hsome as (q & Hin & Hq).
    assert (Hq' : In q kept) by (apply filter_In; done).
    intros Hnil. by rewrite Hnil in Hq'. }
  destruct kept as [|q kept']; [done|]. cbn [map].
  eexists _, _. split; [done|]. split; [done|]. split; [done|].
  split; [|split].
  - rewrite grade_from_imap. by apply imap_ext.
  - by rewrite !length_cons, length_map.
  - apply grade_from_length.
Qed.




End PipelineFacts.

(** * Instances *)

Lemma merge_continuation_example_witness :
  is_marker "Contd" = true
  ∧ merge_ocr_results plain_repr
      [Records [frag "1" "a"; frag "Contd" "b"; frag "2" "c"]]
    = Ok {[ "1" := VStr (("a" ++ nl2) ++ "b"); "2" := VStr "c" ]}.
Proof.
  split; [reflexivity|].
  apply (merge_continuation_example plain_repr "Contd"). reflexivity.
Defined.



Lemma resumed_label_joined_witness :
  ∃ before after m,
    merge_items plain_repr (∅, None) [frag "1" "a"; frag "2" "b"] = Ok before
    ∧ merge_item plain_repr before (frag "1" "c") = Ok after
    ∧ dom after.1 = dom before.1
    ∧ merge_ocr_results plain_repr
        [Records [frag "1" "a"]; Records [frag "2" "b"];
         Records [frag "1" "c"; frag "3" "d"]]
      = Ok m
    ∧ m !! "1" = Some (VStr (("a" ++ nl2) ++ "c")).
Proof.
  destruct (resumed_label_joined plain_repr
              [Records [frag "1" "a"]; Records [frag "2" "b"];
               Records [frag "1" "c"; frag "3" "d"]]
              [] (frag "1" "a") (frag "2" "b") [] (frag "1" "c") [frag "3" "d"])
    as (before & after & m & H1 & H2 & H3 & H4 & H5).
  - reflexivity.
  - reflexivity.
  - reflexivity.
  - reflexivity.
  - repeat constructor; vm_compute; discriminate.
  - reflexivity.
  - exists before, after, m. repeat split; assumption.
Defined.

Lemma missing_marks_fall_back_to_five_witness :
  ∃ req,
    prepare_grading_data plain_repr (session ∅ [unmarked_question] [] None)
    = Some [req]
    ∧ req !! "marks" = Some (num 5).
Proof.
  apply (missing_marks_fall_back_to_five plain_repr ∅ unmarked_question [] None);
    reflexivity.
Defined.

(** The request assembled for a question without marks does not carry the
    marks the claim of C4 names. *)
Lemma missing_marks_are_not_ten :
  ¬ ∃ req,
      prepare_grading_data plain_repr (session ∅ [unmarked_question] [] None)
      = Some [req]
      ∧ req !! "marks" = Some (num 10).
Proof.
  intros (req & Hreq & Hmarks). vm_compute in Hreq. injection Hreq as <-.
  vm_compute in Hmarks. discriminate.
Qed.

(** A question paper of one record without a question number: no request
    is assembled and the grading page stores no result, against C5. *)
Lemma unnumbered_question_is_skipped :
  ¬ ∃ reqs,
      prepare_grading_data plain_repr (session ∅ [unnumbered_question] [] None)
      = Some reqs
      ∧ length reqs = length [unnumbered_question].
Proof.
  intros (reqs & Hreqs & Hlen). vm_compute in Hreqs. injection Hreqs as <-.
  discriminate.
Qed.

Lemma one_request_per_labelled_question_witness :
  ∃ reqs results,
    prepare_grading_data plain_repr
      (session ∅ [question "1" "Q1" 10; unnumbered_question] [] None) = Some reqs
    ∧ grading_results second_call_times_out (awards 7) plain_repr
        (session ∅ [question "1" "Q1" 10; unnumbered_question] [] None)
      = Some results
    ∧ length reqs = 1
    ∧ length results = length reqs.
Proof.
  destruct (one_request_per_labelled_question plain_repr second_call_times_out
              (awards 7) ∅ [question "1" "Q1" 10; unnumbered_question] [] None)
    as (reqs & results & H1 & _ & H2 & _ & H3 & H4); [reflexivity|].
  exists reqs, results. repeat split; assumption.
Defined.

(** A question whose number is the empty string and which matches nothing
    in the rubric or the answers: no request is assembled for it, against
    C6. *)
Lemma empty_label_yields_no_request :
  ¬ ∃ reqs req,
      prepare_grading_data plain_repr (session ∅ [question "" "Q" 10] [] None)
      = Some reqs
      ∧ req ∈ reqs.
Proof.
  intros (reqs & req & Hreqs & Hin). vm_compute in Hreqs.
  injection Hreqs as <-. by apply elem_of_nil in Hin.
Qed.

Lemma unmatched_label_defaults_witness :
  ∃ reqs req,
    prepare_grading_data plain_repr
      (session {[ "1" := VStr "an answer" ]}
         [question "1" "Q1" 10; question "2" "Q2" 5] [] None)
    = Some reqs
    ∧ reqs !! 1 = Some req
    ∧ req !! "question_num" = Some (VStr "2")
    ∧ req !! "student_answer" = Some (VStr "")
    ∧ req !! "grading_scheme" = Some (VStr "").
Proof.
  destruct (unmatched_label_defaults plain_repr {[ "1" := VStr "an answer" ]}
              [question "1" "Q1" 10] [] (question "2" "Q2" 5) [] None)
    as (reqs & req & H1 & H2 & H3 & H4 & H5); [reflexivity|].
  exists reqs, req. repeat split; try assumption.
  - apply H4. reflexivity.
  - apply H5. constructor.
Defined.

(** A payload that cannot be parsed: the stored result has no
    [marks_awarded] at all, against C1. *)
Lemma unparsable_payload_gets_no_marks :
  ¬ ∃ r, grade_from always_answers no_json 0 two_requests !! 1 = Some r
         ∧ r !! "marks_awarded" = Some (num 0).
Proof.
  intros (r & Hr & Hmarks). vm_compute in Hr. injection Hr as <-.
  vm_compute in Hmarks. discriminate.
Qed.

Lemma failing_request_is_isolated_witness :
  length (grade_from second_call_times_out (awards 7) 0 two_requests) = 2
  ∧ grade_from always_answers (awards 7) 0 two_requests !! 0
    = grade_from second_call_times_out (awards 7) 0 two_requests !! 0
  ∧ ∃ r, grade_from second_call_times_out (awards 7) 0 two_requests !! 1 = Some r
         ∧ r !! "marks_awarded" = Some (num 0)
         ∧ r !! "explanation" = Some (VStr "Error during grading")
         ∧ r !! "error" = Some (VStr "timed out")
         ∧ r !! "marks" = Some (num 5).
Proof.
  destruct (failing_request_is_isolated second_call_times_out (awards 7)
              two_requests 1 {[ "question_num" := VStr "2"; "marks" := num 5 ]}
              always_answers)
    as (Hlen & _ & Hothers & Hraise & _).
  - reflexivity.
  - intros [|[|j]] q Hj; [reflexivity | lia | reflexivity].
  - split; [exact Hlen|]. split; [apply Hothers; lia|].
    destruct (Hraise "timed out") as (r & Hr & Hm & He & Herr & Hkeep).
    + left. reflexivity.
    + exists r. repeat split; try assumption.
      rewrite Hkeep; [reflexivity|].
      rewrite !not_elem_of_cons. repeat split; try discriminate.
      apply not_elem_of_nil.
Defined.





(** ** Text chunking *)

Section SplitTextFacts.
Context {C : Type}.
Implicit Types (text : list C) (cs ov : Z).

Lemma chunk_count_lt text cs (k : nat) :
  (0 < cs)%Z →
  (k < chunk_count text cs)%nat ↔ (Z.of_nat k * cs < Z.of_nat (length text))%Z.
Proof.
  intros Hcs. unfold chunk_count.
  set (L := Z.of_nat (length text)).
  assert (0 <= L)%Z by lia.
  assert (Hq : (0 <= (L + cs - 1) / cs)%Z) by (apply Z.div_pos; lia).
  split.
  - intros Hk.
    assert (Hk' : (Z.of_nat k < (L + cs - 1) / cs)%Z) by lia.
    destruct (Z_lt_le_dec (Z.of_nat k * cs) L) as [|Hge]; [done|].
    exfalso.
    assert ((L + cs - 1) / cs < Z.of_nat k + 1)%Z; [|lia].
    apply Z.div_lt_upper_bound; lia.
  - intros Hk.
    assert ((Z.of_nat k + 1 <= (L + cs - 1) / cs)%Z); [|lia].
    apply Z.div_le_lower_bound; lia.
Qed.

Lemma split_loop_closed text cs ov fuel (k : nat) acc :
  (0 < cs)%Z →
  (k ≤ chunk_count text cs)%nat →
  (chunk_count text cs - k ≤ fuel)%nat →
  split_loop fuel text cs ov
    (Z.min (Z.of_nat k * cs) (Z.of_nat (length text))) acc
  = Some (acc ++ map (chunk_at text cs ov) (seq k (chunk_count text cs - k)))%list.
Proof.
  intros Hcs. revert k acc.
  induction fuel as [|fuel IH]; intros k acc Hk Hfuel.
  - assert (k = chunk_count text cs) by lia. subst k.
    assert (Hn : ¬ (chunk_count text cs < chunk_count text cs)%nat) by lia.
    rewrite chunk_count_lt in Hn by done.
    cbn [split_loop].
    destruct (Z.ltb_spec (Z.min (Z.of_nat (chunk_count text cs) * cs)
                            (Z.of_nat (length text))) (Z.of_nat (length text)));
      [lia|].
    rewrite Nat.sub_diag. cbn. by rewrite app_nil_r.
  - destruct (decide (k = chunk_count text cs)) as [->|Hne].
    + assert (Hn : ¬ (chunk_count text cs < chunk_count text cs)%nat) by lia.
      rewrite chunk_count_lt in Hn by done.
      cbn [split_loop].
      destruct (Z.ltb_spec (Z.min (Z.of_nat (chunk_count text cs) * cs)
                              (Z.of_nat (length text))) (Z.of_nat (length text)));
        [lia|].
      rewrite Nat.sub_diag. cbn. by rewrite app_nil_r.
    + assert (Hlt : (k < chunk_count text cs)%nat) by lia.
      pose proof Hlt as Hlt'. rewrite chunk_count_lt in Hlt' by done.
      cbn [split_loop].
      rewrite Z.min_l by lia.
      destruct (Z.ltb_spec (Z.of_nat k * cs) (Z.of_nat (length text))); [|lia].
      replace (Z.of_nat k * cs + cs)%Z with (Z.of_nat (S k) * cs)%Z by lia.
      rewrite IH by lia.
      replace (chunk_count text cs - k) with (S (chunk_count text cs - S k)) by lia.
      cbn [seq map]. rewrite <- app_assoc. cbn [app]. do 3 f_equal.
      unfold chunk_at. destruct k as [|k]; cbn [Z.ltb].
      * reflexivity.
      * destruct (Z.ltb_spec 0 (Z.of_nat (S k) * cs)); [|lia].
        f_equal. lia.
Qed.

(** X23. With a positive chunk size [split_text] terminates, after as
    many turns of its loop as it returns chunks: the length of the text
    divided by the chunk size, rounded up.  Chunk 0 is [text[0:chunk_size]]
    and chunk [k] is [text[k*chunk_size - overlap : (k+1)*chunk_size]], cut
    at the end of the text, sliced as Python slices; the overlap does not
    slow the walk through the text. *)
Theorem split_text_chunks fuel text cs ov :
  (0 < cs)%Z →
  (chunk_count text cs ≤ fuel)%nat →
  split_text fuel text cs ov
  = Some (map (chunk_at text cs ov) (seq 0 (chunk_count text cs))).
Proof.
  intros Hcs Hfuel. unfold split_text. destruct text as [|c text].
  - unfold chunk_count. cbn [length]. 
    replace ((Z.of_nat 0 + cs - 1) / cs)%Z with 0%Z; [done|].
    symmetry. apply Z.div_small. lia.
  - pose proof (split_loop_closed (c :: text) cs ov fuel 0 [] Hcs) as H.
    rewrite Nat.sub_0_r in H. cbn [app] in H.
    rewrite <- H by lia. reflexivity.
Qed.

(** X24. With a chunk size of 0 or less [split_text] never returns on a
    non-empty text: the loop does not finish within any number of turns
    (it keeps appending chunks). *)
Theorem split_text_never_returns fuel text cs ov :
  (cs ≤ 0)%Z → text ≠ [] → split_text fuel text cs ov = None.
Proof.
  intros Hcs Htext. unfold split_text. destruct text as [|c text]; [done|].
  assert (H : ∀ start acc, (start ≤ 0)%Z →
            split_loop fuel (c :: text) cs ov start acc = None).
  { induction fuel as [|fuel IH]; intros start acc Hstart; cbn [split_loop length].
    - destruct (Z.ltb_spec start (Z.of_nat (S (length text)))); [done|lia].
    - destruct (Z.ltb_spec start (Z.of_nat (S (length text)))); [|lia].
      apply IH. lia. }
  by apply H.
Qed.

Lemma chunk_at_segment text cs ov k :
  (0 < cs)%Z → (0 ≤ ov ≤ cs)%Z →
  (k < chunk_count text cs)%nat →
  chunk_at text cs ov k
  = segment text (lo_of (Z.to_nat cs) (Z.to_nat ov) k)
      (hi_of text (Z.to_nat cs) k)
  ∧ (k * Z.to_nat cs < length text)%nat.
Proof.
  intros Hcs Hov Hk. apply chunk_count_lt in Hk; [|done].
  rewrite <- (Z2Nat.id cs) in Hk, Hov |- * by lia.
  rewrite <- (Z2Nat.id ov) in Hov |- * by lia.
  rewrite !Nat2Z.id.
  set (c := Z.to_nat cs) in *. set (o := Z.to_nat ov) in *.
  assert (0 < c)%nat by lia. clearbody c o. clear Hcs.
  split; [|nia].
  unfold chunk_at, slice, segment, py_index, hi_of, lo_of.
  set (L := length text) in *.
  replace (Z.min ((Z.of_nat k + 1) * Z.of_nat c) (Z.of_nat L))
    with (Z.of_nat ((S k * c) `min` L)) by nia.
  set (stop := (S k * c) `min` L).
  destruct (Z.ltb_spec (Z.of_nat stop) 0) as [|_]; [lia|].
  rewrite (Z.min_l (Z.of_nat stop)) by lia.
  destruct k as [|k].
  - rewrite Z.ltb_irrefl, Z.min_l by lia. f_equal. lia.
  - assert (Hle : (o ≤ S k * c)%nat) by nia.
    replace (Z.of_nat (S k) * Z.of_nat c - Z.of_nat o)%Z
      with (Z.of_nat (S k * c - o))
      by (rewrite Nat2Z.inj_sub, Nat2Z.inj_mul by done; lia).
    destruct (Z.ltb_spec (Z.of_nat (S k * c - o)) 0) as [|_]; [lia|].
    rewrite Z.min_l by nia. f_equal; [lia|]. f_equal. lia.
Qed.

Lemma segment_length text a b :
  (a ≤ b ≤ length text)%nat → length (segment text a b) = (b - a)%nat.
Proof.
  intros H. unfold segment. rewrite length_take, length_drop. lia.
Qed.

Lemma lo_hi_of text c o k :
  (0 < c)%nat → (o ≤ c)%nat → (k * c < length text)%nat →
  (lo_of c o k ≤ k * c)%nat ∧ (k * c < hi_of text c k)%nat
  ∧ (hi_of text c k ≤ length text)%nat
  ∧ (k * c - lo_of c o k ≤ o)%nat.
Proof.
  intros Hc Ho Hk. unfold lo_of, hi_of. destruct k; repeat split; nia.
Qed.

Lemma split_text_segments fuel text cs ov :
  (0 < cs)%Z → (0 ≤ ov ≤ cs)%Z →
  (chunk_count text cs ≤ fuel)%nat →
  split_text fuel text cs ov
  = Some (map (fun k => segment text (lo_of (Z.to_nat cs) (Z.to_nat ov) k)
                          (hi_of text (Z.to_nat cs) k))
            (seq 0 (chunk_count text cs))).
Proof.
  intros Hcs Hov Hfuel. rewrite split_text_chunks by done. f_equal.
  apply map_ext_in. intros k Hk%in_seq.
  assert (Hlt : (k < chunk_count text cs)%nat) by lia.
  by destruct (chunk_at_segment text cs ov k Hcs Hov Hlt) as [-> _].
Qed.

Lemma segments_concat text c n k :
  (0 < c)%nat → (length text ≤ n * c)%nat → (k ≤ n)%nat →
  concat (map (fun j => segment text (j * c) (hi_of text c j)) (seq k (n - k)))
  = drop (k * c) text.
Proof.
  intros Hc Hn Hk. remember (n - k)%nat as m eqn:Hm.
  revert k Hk Hm. induction m as [|m IH]; intros k Hk Hm.
  - cbn. rewrite drop_ge; [done|]. assert (k = n) by lia. subst. lia.
  - cbn [seq map concat]. rewrite IH by lia.
    unfold segment, hi_of.
    destruct (le_lt_dec (S k * c) (length text)) as [Hle|Hgt].
    + rewrite Nat.min_l by done.
      replace (S k * c - k * c)%nat with c by lia.
      replace (S k * c)%nat with (k * c + c)%nat by lia.
      rewrite <- drop_drop. apply take_drop.
    + rewrite Nat.min_r by lia.
      rewrite (drop_ge _ (S k * c)) by lia. rewrite app_nil_r.
      apply take_ge. rewrite length_drop. lia.
Qed.

Lemma chunk_count_covers text cs :
  (0 < cs)%Z → (length text ≤ chunk_count text cs * Z.to_nat cs)%nat.
Proof.
  intros Hcs.
  assert (Hn : ¬ (chunk_count text cs < chunk_count text cs)%nat) by lia.
  rewrite chunk_count_lt in Hn by done. nia.
Qed.

Lemma drop_overlap_segment text c o k :
  (0 < c)%nat → (o ≤ c)%nat → (0 < k)%nat → (k * c < length text)%nat →
  drop o (segment text (lo_of c o k) (hi_of text c k))
  = segment text (k * c) (hi_of text c k).
Proof.
  intros Hc Ho Hk Hlen. unfold segment, lo_of. destruct k as [|k]; [lia|].
  rewrite skipn_firstn_comm, drop_drop. f_equal; [|f_equal]; nia.
Qed.

(** X25. With a positive chunk size and an overlap between 0 and the chunk
    size, the chunks cover the text without loss: the first chunk followed
    by every later chunk without its first [overlap] characters is the
    text. *)
Theorem split_text_rejoin fuel text cs ov :
  (0 < cs)%Z → (0 ≤ ov ≤ cs)%Z →
  (chunk_count text cs ≤ fuel)%nat →
  ∃ chunks, split_text fuel text cs ov = Some chunks
            ∧ rejoin ov chunks = text.
Proof.
  intros Hcs Hov Hfuel. eexists. split; [by apply split_text_segments|].
  pose proof (chunk_count_covers text cs Hcs) as Hcover.
  set (c := Z.to_nat cs) in *. set (o := Z.to_nat ov) in *.
  assert (Hc : (0 < c)%nat) by lia. assert (Ho : (o ≤ c)%nat) by lia.
  pose proof (λ k, proj1 (chunk_count_lt text cs k Hcs)) as Hlt.
  destruct (chunk_count text cs) as [|n] eqn:Hn.
  - cbn. destruct text; [done|]. cbn [length] in Hcover. lia.
  - cbn [seq map rejoin].
    rewrite <- (segments_concat text c (S n) 0 Hc Hcover) at 3 by lia.
    rewrite Nat.sub_0_r. cbn [seq map concat]. f_equal.
    f_equal. rewrite map_map. apply map_ext_in. intros k Hk%in_seq.
    apply drop_overlap_segment; [done..|lia|].
    specialize (Hlt k). subst c. nia.
Qed.

(** X26. With a positive chunk size and an overlap between 0 and the chunk
    size, no chunk is empty, and a chunk can be longer than the chunk
    size: chunk [k] has [min((k+1)*chunk_size, len) - max(0, k*chunk_size -
    overlap)] characters, which is [chunk_size + overlap] for every chunk
    but the first and the last, and never more. *)
Theorem split_text_sizes fuel text cs ov :
  (0 < cs)%Z → (0 ≤ ov ≤ cs)%Z →
  (chunk_count text cs ≤ fuel)%nat →
  ∃ chunks,
    split_text fuel text cs ov = Some chunks
    ∧ length chunks = chunk_count text cs
    ∧ ∀ k chunk, chunks !! k = Some chunk →
        Z.of_nat (length chunk)
        = (Z.min ((Z.of_nat k + 1) * cs) (Z.of_nat (length text))
           - Z.max 0 (Z.of_nat k * cs - ov))%Z
        ∧ (1 ≤ Z.of_nat (length chunk) ≤ cs + ov)%Z.
Proof.
  intros Hcs Hov Hfuel. eexists. split; [by apply split_text_segments|].
  split; [by rewrite length_map, length_seq|].
  intros k chunk Hk. rewrite list_lookup_fmap in Hk.
  destruct (seq 0 (chunk_count text cs) !! k) as [j|] eqn:Hj; [|done].
  apply lookup_seq in Hj as [-> Hlt]. cbv [fmap option_fmap option_map] in Hk. injection Hk as <-.
  apply chunk_count_lt in Hlt; [|done].
  set (c := Z.to_nat cs) in *. set (o := Z.to_nat ov) in *.
  assert (Hc : (0 < c)%nat) by lia. assert (Ho : (o ≤ c)%nat) by lia.
  assert (Hkc : (k * c < length text)%nat) by (subst c; nia).
  destruct (lo_hi_of text c o k Hc Ho Hkc) as (H1 & H2 & H3 & H4).
  rewrite segment_length by lia.
  assert (Hcs' : cs = Z.of_nat c) by lia. assert (Hov' : ov = Z.of_nat o) by lia.
  rewrite Hcs', Hov'. unfold lo_of, hi_of in *. destruct k as [|k]; split; nia.
Qed.

(** X27. With a positive chunk size and an overlap between 0 and the chunk
    size, consecutive chunks share their border: the first [overlap]
    characters of a chunk are the last [overlap] characters of the chunk
    before it. *)
Theorem split_text_overlap fuel text cs ov :
  (0 < cs)%Z → (0 ≤ ov ≤ cs)%Z →
  (chunk_count text cs ≤ fuel)%nat →
  ∃ chunks,
    split_text fuel text cs ov = Some chunks
    ∧ ∀ k a b, chunks !! k = Some a → chunks !! S k = Some b →
        take (Z.to_nat ov) b = drop (length a - Z.to_nat ov) a.
Proof.
  intros Hcs Hov Hfuel. eexists. split; [by apply split_text_segments|].
  intros k a b Ha Hb. rewrite list_lookup_fmap in Ha, Hb.
  destruct (seq 0 (chunk_count text cs) !! k) as [j|] eqn:Hj; [|done].
  destruct (seq 0 (chunk_count text cs) !! S k) as [j'|] eqn:Hj'; [|done].
  apply lookup_seq in Hj as [-> _]. apply lookup_seq in Hj' as [-> Hlt].
  cbv [fmap option_fmap option_map] in Ha, Hb.
  injection Ha as <-. injection Hb as <-.
  apply chunk_count_lt in Hlt; [|done].
  set (c := Z.to_nat cs) in *. set (o := Z.to_nat ov) in *.
  assert (Hc : (0 < c)%nat) by lia. assert (Ho : (o ≤ c)%nat) by lia.
  assert (Hkc : (S k * c < length text)%nat) by (subst c; nia).
  assert (Hkc' : (k * c < length text)%nat) by nia.
  destruct (lo_hi_of text c o k Hc Ho Hkc') as (H1 & H2 & H3 & H4).
  destruct (lo_hi_of text c o (S k) Hc Ho Hkc) as (G1 & G2 & G3 & G4).
  rewrite segment_length by lia.
  assert (Hhi : hi_of text c k = (S k * c)%nat) by (unfold hi_of; lia).
  unfold segment. rewrite Hhi.
  rewrite take_take, skipn_firstn_comm, drop_drop.
  rewrite Nat.min_l by lia.
  f_equal; [|f_equal]; unfold lo_of in *; destruct k; nia.
Qed.

End SplitTextFacts.

(** * Further properties of the merge *)

Section MergerMore.
Variable num_repr : Qc → string.

(** X1. The merge sees a scan only through its fragments in document
    order: two scans with the same fragments give the same outcome, so
    page breaks, empty pages and pages whose OCR result is not a list make
    no difference. *)
Theorem merge_same_fragments all_results all_results' :
  fragments all_results = fragments all_results' →
  merge_ocr_results num_repr all_results
  = merge_ocr_results num_repr all_results'.
Proof.
  intros Hfr. unfold merge_ocr_results.
  by rewrite !merge_pages_fragments, Hfr.
Qed.

(** X2. When every answer of a scan is a string (or absent) the merge
    raises nothing, and every text of the mapping it returns is a
    string. *)
Theorem merge_total_on_text all_results :
  text_answers (fragments all_results) = true →
  ∃ m, merge_ocr_results num_repr all_results = Ok m
       ∧ map_Forall (fun _ v => is_text v = true) m.
Proof.
  intros Htxt. rewrite merge_text_fragments by done. eexists. split; [done|].
  by destruct (merge_items_text num_repr (∅, None) _ merge_inv_init Htxt)
    as [_ [Hinv _]].
Qed.

Lemma text_steps_keys st items l k :
  st.2 = Some l →
  is_Some (st.1 !! l) →
  is_Some ((foldl (text_step num_repr) st items).1 !! k)
  ↔ is_Some (st.1 !! k)
    ∨ ∃ item, item ∈ items ∧ label_of num_repr item = k ∧ is_marker k = false.
Proof.
  revert st l. induction items as [|item items IH]; intros [m last] l Hl Hin;
    cbn [fst snd foldl] in *.
  - split; [by left|]. intros [H|(item & Hitem & _)]; [done|].
    by apply elem_of_nil in Hitem.
  - subst last.
    set (key := target num_repr (Some l) item).
    assert (Hstep : text_step num_repr (m, Some l) item
                    = (<[key := VStr (joined (m !! key) (text_of item))]> m,
                       Some key)) by done.
    rewrite Hstep, (IH _ key) by (cbn; by rewrite ?lookup_insert_eq).
    cbn [fst]. rewrite lookup_insert_is_Some.
    unfold key, target. cbn zeta.
    destruct (is_marker (label_of num_repr item)) eqn:Hm; cbn [default from_option id].
    + split.
      * intros [[<-|[_ H]]|(x & Hx & Hlab & Hk)]; [by left | by left |].
        right. exists x. split; [by right | done].
      * intros [H|(x & Hx & Hlab & Hk)].
        { left. destruct (decide (l = k)); [by left | by right]. }
        apply elem_of_cons in Hx as [->|Hx]; [congruence|].
        right. by exists x.
    + split.
      * intros [[<-|[_ H]]|(x & Hx & Hlab & Hk)].
        { right. exists item. split; [by left | done]. }
        { by left. }
        right. exists x. split; [by right | done].
      * intros [H|(x & Hx & Hlab & Hk)].
        { left. destruct (decide (label_of num_repr item = k));
            [by left | by right]. }
        apply elem_of_cons in Hx as [->|Hx]; [left; by left|].
        right. by exists x.
Qed.

(** X3. When every answer is a string, the keys of the merged mapping are
    exactly the label of the first fragment and the labels of the
    fragments that do not carry the continuation marker: no labelled
    fragment is lost and no other key appears. *)
Theorem merge_keys all_results :
  text_answers (fragments all_results) = true →
  ∃ m, merge_ocr_results num_repr all_results = Ok m
       ∧ ∀ k, is_Some (m !! k)
              ↔ (∃ item rest, fragments all_results = item :: rest
                              ∧ label_of num_repr item = k)
                ∨ (∃ item, item ∈ fragments all_results
                           ∧ label_of num_repr item = k
                           ∧ is_marker k = false).
Proof.
  intros Htxt. rewrite merge_text_fragments by done. eexists. split; [done|].
  intros k. destruct (fragments all_results) as [|first rest]; cbn [foldl].
  - cbn [fst]. rewrite lookup_empty. split; [by intros [? ?]|].
    intros [(? & ? & ? & _)|(x & Hx & _)]; [done|]. by apply elem_of_nil in Hx.
  - assert (Hfirst : text_step num_repr (∅, None) first
                     = (<[label_of num_repr first
                          := VStr (joined ((∅ : dict) !! label_of num_repr first)
                                     (text_of first))]> (∅ : dict),
                        Some (label_of num_repr first))).
    { unfold text_step, target. cbn zeta.
      by destruct (is_marker (label_of num_repr first)). }
    rewrite Hfirst.
    rewrite (text_steps_keys _ rest (label_of num_repr first))
      by (cbn; by rewrite ?lookup_insert_eq).
    cbn [fst]. rewrite lookup_insert_is_Some, lookup_empty.
    split.
    + intros [[<-|[_ [? ?]]]|(x & Hx & Hlab & Hk)]; [|done|].
      * left. by eexists _, _.
      * right. exists x. split; [by right | done].
    + intros [(x & r & [= <- <-] & Hlab)|(x & Hx & Hlab & Hk)].
      * left. by left.
      * apply elem_of_cons in Hx as [->|Hx]; [left; by left|].
        right. by exists x.
Qed.

End MergerMore.

Lemma join_extend sep a t ts :
  join sep (((a ++ sep) ++ t) :: ts) = a ++ sep ++ join sep (t :: ts).
Proof.
  destruct ts as [|u ts]; cbn [join]; by rewrite !append_assoc.
Qed.

Lemma accumulate_some a ts :
  accumulate (Some (VStr a)) ts = Some (VStr (join nl2 (a :: ts))).
Proof.
  revert a. induction ts as [|t ts IH]; intros a; [done|].
  unfold accumulate in *. cbn [foldl joined]. rewrite IH.
  by rewrite join_extend.
Qed.

Lemma accumulate_none ts : accumulate None ts = joined_texts ts.
Proof.
  destruct ts as [|t ts]; [done|].
  unfold accumulate. cbn [foldl joined]. apply accumulate_some.
Qed.

Lemma accumulate_app old ts us :
  accumulate old (ts ++ us) = accumulate (accumulate old ts) us.
Proof. apply foldl_app. Qed.

Section MergerTexts.
Variable num_repr : Qc → string.

Lemma text_steps_texts st items k :
  (foldl (text_step num_repr) st items).1 !! k
  = accumulate (st.1 !! k) (texts_for num_repr k st.2 items).
Proof.
  revert st. induction items as [|item items IH]; intros [m last]; [done|].
  cbn [foldl texts_for]. rewrite IH, accumulate_app. f_equal.
  unfold text_step. cbn [fst snd].
  destruct (String.eqb_spec (target num_repr last item) k) as [<-|Hne].
  - by rewrite lookup_insert_eq.
  - by rewrite lookup_insert_ne.
Qed.

(** X4. When every answer is a string, the text the merge returns for a
    key is the texts of the fragments filed under that key, in document
    order, joined by blank lines (a fragment is filed under the last label
    seen when it carries the continuation marker and one was seen, under
    its own label otherwise); a key under which nothing is filed has no
    entry. *)
Theorem merge_texts all_results :
  text_answers (fragments all_results) = true →
  ∃ m, merge_ocr_results num_repr all_results = Ok m
       ∧ ∀ k, m !! k
              = joined_texts
                  (texts_for num_repr k None (fragments all_results)).
Proof.
  intros Htxt. rewrite merge_text_fragments by done. eexists. split; [done|].
  intros k. rewrite text_steps_texts. cbn [fst snd].
  rewrite lookup_empty. apply accumulate_none.
Qed.

(** X5. An answer that is not a string is stored as it is, but the next
    fragment filed under the same key (a continuation, or the same label
    again) makes the merge raise a [TypeError]: the whole scan is lost to
    one malformed answer. *)
Theorem merge_raises_on_non_text all_results x y rest :
  fragments all_results = x :: y :: rest →
  is_text (answer_of x) = false →
  target num_repr (Some (label_of num_repr x)) y = label_of num_repr x →
  merge_ocr_results num_repr [Records [x]]
  = Ok {[ label_of num_repr x := answer_of x ]}
  ∧ merge_ocr_results num_repr all_results = Raise "TypeError".
Proof.
  intros Hfr Hx Hy.
  assert (Hfirst : merge_item num_repr (∅, None) x
                   = Ok ({[ label_of num_repr x := answer_of x ]},
                         Some (label_of num_repr x))).
  { unfold merge_item. fold (label_of num_repr x) (answer_of x).
    rewrite lookup_empty, insert_empty.
    by destruct (String.eqb (lower (label_of num_repr x)) "contd"). }
  split.
  { unfold merge_ocr_results. cbn [merge_pages merge_page merge_items].
    by rewrite Hfirst. }
  unfold merge_ocr_results. rewrite merge_pages_fragments, Hfr.
  cbn [merge_items]. rewrite Hfirst. cbn [bind].
  assert (Hsecond : merge_item num_repr
                      ({[ label_of num_repr x := answer_of x ]},
                       Some (label_of num_repr x)) y
                    = Raise "TypeError").
  { unfold merge_item. fold (label_of num_repr y) (answer_of y).
    unfold target in Hy. cbn zeta in Hy. unfold is_marker in Hy.
    destruct (String.eqb (lower (label_of num_repr y)) "contd").
    - unfold get. rewrite lookup_singleton_eq. cbn [default from_option id].
      by destruct (answer_of x).
    - rewrite Hy, lookup_singleton_eq. by destruct (answer_of x). }
  by rewrite Hsecond.
Qed.

End MergerTexts.

(** * Further properties of the assembler *)

Section AssemblerMore.
Variable num_repr : Qc → string.

Lemma gs_lookup_last (before after : list dict) item :
  Forall (fun other => rubric_key num_repr other ≠ rubric_key num_repr item)
    after →
  gs_lookup_of num_repr (before ++ item :: after) !! rubric_key num_repr item
  = Some (get item "grading_scheme" (VStr "")).
Proof.
  intros Hafter. unfold gs_lookup_of. rewrite foldl_app. cbn [foldl].
  rewrite gs_lookup_other by done. apply lookup_insert_eq.
Qed.

(** X6. When several rubric records carry the same question number the
    last one wins: the request of a question with that number gets the
    scheme of the last such record (the empty string if that record has no
    scheme), whatever the earlier ones say. *)
Theorem last_rubric_record_wins answers (qp_before qp_after : list dict)
    question (gs_before gs_after : list dict) item notes :
  has_label num_repr question = true →
  rubric_key num_repr item = q_num_of num_repr question →
  Forall (fun other => rubric_key num_repr other ≠ rubric_key num_repr item)
    gs_after →
  ∃ reqs req,
    prepare_grading_data num_repr
      (session answers (qp_before ++ question :: qp_after)
         (gs_before ++ item :: gs_after) notes)
    = Some reqs
    ∧ reqs !! length (List.filter (has_label num_repr) qp_before) = Some req
    ∧ req !! "grading_scheme" = Some (get item "grading_scheme" (VStr "")).
Proof.
  intros Hlabel Hkey Hafter. rewrite prepare_session, assemble_filter.
  rewrite List.filter_app. cbn [List.filter]. rewrite Hlabel.
  rewrite map_app. cbn [map]. eexists _, _. split; [done|]. split.
  { rewrite lookup_app_r by (by rewrite length_map).
    rewrite length_map, Nat.sub_diag. reflexivity. }
  destruct (question_data_fields answers
              (gs_lookup_of num_repr (gs_before ++ item :: gs_after))
              (default (VStr "") notes) (q_num_of num_repr question) question)
    as (_ & _ & _ & -> & _).
  unfold get at 1. by rewrite <- Hkey, gs_lookup_last.
Qed.

Lemma question_data_dom student_answers gs_lookup professor_prompt q question :
  dom (question_data_of student_answers gs_lookup professor_prompt q question)
  = ({[ "question_num"; "question"; "marks"; "student_answer";
        "grading_scheme"; "relevant_lecture_text"; "professor_prompt" ]}
     : gset string).
Proof.
  unfold question_data_of. rewrite !dom_insert_L, dom_singleton_L.
  set_solver.
Qed.

(** X7. Every request the assembler returns has exactly the seven fields
    [grade_answer] is told about; its question number is a non-empty
    string, its lecture text is always empty and its professor prompt is
    the stored notes (empty when none were stored). *)
Theorem request_shape ss reqs req :
  prepare_grading_data num_repr ss = Some reqs →
  req ∈ reqs →
  dom req = ({[ "question_num"; "question"; "marks"; "student_answer";
                "grading_scheme"; "relevant_lecture_text";
                "professor_prompt" ]} : gset string)
  ∧ (∃ q, req !! "question_num" = Some (VStr q) ∧ q ≠ "")
  ∧ req !! "relevant_lecture_text" = Some (VStr "")
  ∧ req !! "professor_prompt" = Some (default (VStr "") (user_notes ss)).
Proof.
  unfold prepare_grading_data.
  destruct (merged_answers ss) as [answers|]; [|done].
  destruct (question_paper_json ss) as [[qp|]|]; [|done..].
  destruct (grading_scheme_json ss) as [[gs|]|]; [|done..].
  intros [= <-] Hin. rewrite assemble_filter in Hin.
  apply list_elem_of_In, in_map_iff in Hin as (question & <- & Hq).
  apply filter_In in Hq as [_ Hq].
  split; [apply question_data_dom|]. split; [|done].
  exists (q_num_of num_repr question). split; [done|].
  unfold has_label in Hq. intros Hempty. rewrite Hempty in Hq. discriminate.
Qed.

End AssemblerMore.

(** * Further properties of the grading page *)




Section GradingMore.
Variable num_repr : Qc → string.
Variable generate_content : nat → dict → result string.
Variable json_loads : string → option reply.

(** X9. The grading page stores results exactly when the merged answers
    are present, the question paper and the grading scheme are lists, and
    at least one question has a non-empty number; in every other case it
    stops at the missing-data message. *)
Theorem grading_page_runs_iff ss :
  is_Some (grading_page generate_content json_loads num_repr ss)
  ↔ ∃ answers question_paper grading_scheme,
      merged_answers ss = Some answers
      ∧ question_paper_json ss = Some (Records question_paper)
      ∧ grading_scheme_json ss = Some (Records grading_scheme)
      ∧ existsb (has_label num_repr) question_paper = true.
Proof.
  unfold grading_page, grading_results, prepare_grading_data.
  destruct (merged_answers ss) as [answers|];
    [|split; [by intros [? ?] | by intros (? & ? & ? & ? & _)]].
  destruct (question_paper_json ss) as [[qp|]|];
    [|split; [by intros [? ?] | by intros (? & ? & ? & _ & ? & _)]..].
  destruct (grading_scheme_json ss) as [[gs|]|];
    [|split; [by intros [? ?] | by intros (? & ? & ? & _ & _ & ? & _)]..].
  rewrite assemble_filter.
  destruct (List.filter (has_label num_repr) qp) as [|q kept] eqn:Hkept;
    cbn [map].
  - split; [by intros [? ?]|].
    intros (answers' & qp' & gs' & _ & [= <-] & _ & Hex).
    apply existsb_exists in Hex as (question & Hin & Hq).
    assert (Hq' : In question (List.filter (has_label num_repr) qp))
      by (by apply filter_In).
    by rewrite Hkept in Hq'.
  - split; [|by eexists]. intros _. exists answers, qp, gs.
    repeat split. apply existsb_exists. exists q.
    apply (filter_In (has_label num_repr)). rewrite Hkept. by left.
Qed.

Lemma grade_one_marks i req :
  (∀ text g, json_loads text = Some (Mapping g) → g !! "marks" = None) →
  marks_of (grade_one generate_content json_loads i req) = marks_of req.
Proof.
  intros Hreplies. unfold marks_of, get, grade_one, grade_answer.
  destruct (generate_content i req) as [text|msg]; cbn [bind].
  - destruct (json_loads text) as [[g|tname]|] eqn:Hloads.
    + by rewrite (lookup_union_r _ _ _ (Hreplies _ _ Hloads)).
    + unfold failed_grading. by rewrite lookup_union_r.
    + unfold parse_fallback. by rewrite lookup_union_r.
  - unfold failed_grading. by rewrite lookup_union_r.
Qed.

(** X10. When no decoded reply carries a [marks] field, every result keeps
    the marks of its request whether its call succeeded, failed or was
    unparsable: the total of possible marks shown is the total of the
    requests' marks, however many evaluations fail. *)
Theorem possible_unaffected_by_failures (grading_data : list dict) :
  (∀ text g, json_loads text = Some (Mapping g) → g !! "marks" = None) →
  map marks_of (grade_from generate_content json_loads 0 grading_data)
  = map marks_of grading_data
  ∧ total_possible_marks (grade_from generate_content json_loads 0 grading_data)
    = total_possible_marks grading_data.
Proof.
  intros Hreplies.
  assert (Hcol : ∀ i, map marks_of
                        (grade_from generate_content json_loads i grading_data)
                      = map marks_of grading_data).
  { induction grading_data as [|req rest IH]; intros i; [done|].
    cbn [grade_from map]. by rewrite IH, grade_one_marks. }
  split; [apply Hcol|].
  unfold total_possible_marks. fold marks_of. by rewrite Hcol.
Qed.

(** X11. For requests built by the assembler, a call that raises, a reply
    that is not an object and a reply that cannot be parsed all count 0
    towards the marks awarded. *)
Theorem failed_request_counts_zero ss reqs k req :
  prepare_grading_data num_repr ss = Some reqs →
  reqs !! k = Some req →
  (∀ g, grade_answer generate_content json_loads k req ≠ Ok (Mapping g))
  ∨ (∃ text, generate_content k req = Ok text ∧ json_loads text = None) →
  ∃ r, grade_from generate_content json_loads 0 reqs !! k = Some r
       ∧ marks_awarded_of r = num 0.
Proof.
  intros Hprep Hk Hfail.
  assert (Hnone : req !! "marks_awarded" = None).
  { apply list_elem_of_lookup_2 in Hk.
    destruct (request_shape num_repr ss reqs req Hprep Hk) as [Hdom _].
    apply (not_elem_of_dom (D := gset string)). rewrite Hdom.
    rewrite !not_elem_of_union, !not_elem_of_singleton. by repeat split. }
  exists (grade_one generate_content json_loads k req).
  split; [by rewrite grade_from_lookup, Hk|].
  unfold marks_awarded_of, get, grade_one.
  destruct Hfail as [Hfail|(text & Htext & Hparse)].
  - destruct (grade_answer generate_content json_loads k req) as [[g|tname]|msg].
    + by destruct (Hfail g).
    + unfold failed_grading. by rewrite (lookup_union_Some_l _ _ _ (num 0)).
    + unfold failed_grading. by rewrite (lookup_union_Some_l _ _ _ (num 0)).
  - unfold grade_answer. rewrite Htext. cbn [bind]. rewrite Hparse.
    unfold parse_fallback. rewrite lookup_union_r by done. by rewrite Hnone.
Qed.

End GradingMore.

(** * Extraction and retrieval *)

Lemma append_empty_iff (s t : string) : s ++ t = "" ↔ s = "" ∧ t = "".
Proof.
  split; [|by intros [-> ->]]. destruct s; [done|]. discriminate.
Qed.

Lemma read_pages_readable text texts :
  read_pages text (Ok <$> texts) = Ok (text ++ pages_text texts).
Proof.
  revert text. induction texts as [|t texts IH]; intros text.
  - cbn. by rewrite append_nil_r.
  - cbn [fmap list_fmap read_pages bind pages_text foldr]. rewrite IH.
    fold (pages_text texts). by rewrite !append_assoc.
Qed.

Lemma read_pages_cases text pages :
  (∃ texts, pages = Ok <$> texts) ∨ (∃ msg, read_pages text pages = Raise msg).
Proof.
  revert text. induction pages as [|[t|msg] pages IH]; intros text.
  - left. by exists [].
  - cbn [read_pages bind].
    destruct (IH ((text ++ t) ++ nl2)) as [[texts ->]|Hraise]; [|by right].
    left. by exists (t :: texts).
  - right. by exists msg.
Qed.

(** X12. [extract_text_from_pdf] never raises.  For a PDF that opens and
    whose pages can all be read it returns every page's text followed by a
    blank line, in page order; it returns the empty string exactly when
    the PDF cannot be opened, some page cannot be read, or it has no page.
    A PDF with at least one readable page never yields the empty string,
    even when no page has any text. *)
Theorem extract_text_from_pdf_spec (document : pdf) :
  (∀ texts, document = Ok (Ok <$> texts) →
            extract_text_from_pdf document = pages_text texts)
  ∧ (extract_text_from_pdf document = ""
     ↔ ∀ t texts, document ≠ Ok (Ok <$> (t :: texts))).
Proof.
  assert (Hread : ∀ texts, extract_text_from_pdf (Ok (Ok <$> texts))
                           = pages_text texts).
  { intros texts. unfold extract_text_from_pdf. cbn [bind].
    by rewrite read_pages_readable. }
  split; [by intros texts ->|]. split.
  - intros Hempty t texts ->. rewrite Hread in Hempty.
    cbn [pages_text foldr] in Hempty.
    apply append_empty_iff in Hempty as [Hempty _].
    by apply append_empty_iff in Hempty as [_ Hnl].
  - intros Hnot. destruct document as [pages|msg]; [|done].
    destruct (read_pages_cases "" pages) as [[texts ->]|[msg Hraise]].
    + destruct texts as [|t texts]; [done|]. by destruct (Hnot t texts).
    + unfold extract_text_from_pdf. cbn [bind]. by rewrite Hraise.
Qed.

Section ExtractionFacts.
Variable ask : string → result string.
Variable loads : string → option json.
Variable qp_prompt gs_prompt : string.

Lemma ask_json_list prompt items :
  ask_json ask loads prompt = Ok (JList items)
  ↔ ∃ text, ask prompt = Ok text ∧ loads text = Some (JList items).
Proof.
  unfold ask_json. destruct (ask prompt) as [text|msg]; cbn [bind].
  - destruct (loads text) as [j|] eqn:Hloads.
    + split; [intros [= ->]; by exists text|].
      intros (text' & [= <-] & Hj). by rewrite Hloads in Hj; injection Hj as ->.
    + split; [done|]. intros (text' & [= <-] & Hj). congruence.
  - split; [done|]. by intros (text & ? & _).
Qed.

(** X13. [process_question_paper_pdf] and [process_grading_scheme_pdf]
    never raise, and each returns a list of records exactly when the text
    extracted from the PDF is not empty, the model call on it returns, and
    the response decodes to that list.  In every other case (unreadable
    PDF, failed call, response that is not JSON or not a list) the
    result is not a list. *)
Theorem extraction_returns_list_iff (document : pdf) items :
  (to_extraction (process_question_paper_pdf ask loads qp_prompt document)
   = Records items
   ↔ extract_text_from_pdf document ≠ ""
     ∧ ∃ text, ask (qp_prompt ++ extract_text_from_pdf document) = Ok text
               ∧ loads text = Some (JList items))
  ∧ (to_extraction (process_grading_scheme_pdf ask loads gs_prompt document)
     = Records items
     ↔ extract_text_from_pdf document ≠ ""
       ∧ ∃ text, ask (gs_prompt ++ extract_text_from_pdf document) = Ok text
                 ∧ loads text = Some (JList items)).
Proof.
  assert (Hshape : ∀ prompt failure,
    to_extraction
      (if String.eqb (extract_text_from_pdf document) ""
       then error_dict "Failed to extract text from PDF"
       else match ask_json ask loads
                    (prompt ++ extract_text_from_pdf document) with
            | Ok data => data
            | Raise msg => error_dict (failure ++ msg)
            end) = Records items
    ↔ extract_text_from_pdf document ≠ ""
      ∧ ∃ text, ask (prompt ++ extract_text_from_pdf document) = Ok text
                ∧ loads text = Some (JList items)).
  { intros prompt failure. rewrite <- ask_json_list.
    destruct (String.eqb_spec (extract_text_from_pdf document) "") as [He|He].
    { split; [done|]. by intros [? _]. }
    destruct (ask_json ask loads (prompt ++ extract_text_from_pdf document))
      as [[items'| |]|msg]; cbn [to_extraction error_dict].
    - split; [by intros [= ->]|]. by intros [_ [= ->]].
    - split; [done|]. by intros [_ ?].
    - split; [done|]. by intros [_ ?].
    - split; [done|]. by intros [_ ?]. }
  split; apply Hshape.
Qed.

Variable num_repr : Qc → string.
Variable generate_content : nat → dict → result string.
Variable json_loads : string → option reply.

(** X14. A question paper whose PDF cannot be opened, has an unreadable
    page or has no page is turned into the error record without the model
    being asked, and a session that stores this outcome as its question
    paper gets no grading: the assembler returns [None] and the grading
    page stops at the missing-data message. *)
Theorem unreadable_paper_blocks_grading (document : pdf) ss :
  extract_text_from_pdf document = "" →
  question_paper_json ss
  = Some (to_extraction
            (process_question_paper_pdf ask loads qp_prompt document)) →
  process_question_paper_pdf ask loads qp_prompt document
  = error_dict "Failed to extract text from PDF"
  ∧ prepare_grading_data num_repr ss = None
  ∧ grading_page generate_content json_loads num_repr ss = None.
Proof.
  intros Hempty Hqp.
  assert (Herr : process_question_paper_pdf ask loads qp_prompt document
                 = error_dict "Failed to extract text from PDF").
  { unfold process_question_paper_pdf. by rewrite Hempty. }
  rewrite Herr in Hqp. cbn [to_extraction error_dict] in Hqp.
  assert (Hprep : prepare_grading_data num_repr ss = None).
  { unfold prepare_grading_data. rewrite Hqp.
    by destruct (merged_answers ss). }
  repeat split; [done..|].
  unfold grading_page, grading_results. by rewrite Hprep.
Qed.

End ExtractionFacts.

Lemma strings_of_text values :
  forallb is_text values = true →
  strings_of values
  = Ok (map (fun v => match v with VStr s => s | _ => "" end) values).
Proof.
  induction values as [|v values IH]; [done|]. cbn [forallb].
  intros [Hv Hrest]%andb_true_iff. destruct v; try discriminate.
  cbn [strings_of map]. by rewrite IH.
Qed.

Lemma strings_of_raises values :
  forallb is_text values = false → strings_of values = Raise "TypeError".
Proof.
  induction values as [|v values IH]; [done|]. cbn [forallb].
  destruct v as [|q|t]; try done. cbn [is_text andb strings_of].
  intros Hrest. by rewrite IH.
Qed.

Lemma strings_are_text (texts : list string) :
  forallb is_text (map VStr texts) = true.
Proof. induction texts as [|t texts IH]; [done | exact IH]. Qed.

Lemma relevant_texts_payloads payloads :
  relevant_texts (Some <$> payloads)
  = Ok (List.filter truthy
          (map (fun payload => get payload "text" (VStr "")) payloads)).
Proof.
  induction payloads as [|payload payloads IH]; [done|].
  cbn [fmap list_fmap relevant_texts map List.filter].
  fold (@fmap list _ _ _ (@Some dict) payloads). rewrite IH. done.
Qed.

(** X15. When the search returns and every hit has a payload whose [text]
    is a string or is absent, [retrieve_relevant_text] returns the
    non-empty texts of the hits, in rank order, joined by blank lines;
    hits with an empty or absent text leave no trace, not even a
    separator. *)
Theorem retrieve_joins_texts (payloads : list dict) :
  text_payloads payloads = true →
  retrieve_relevant_text (Ok (Some <$> payloads))
  = join nl2 (List.filter non_empty (map payload_text payloads)).
Proof.
  intros Htxt. unfold retrieve_relevant_text. cbn [bind].
  rewrite relevant_texts_payloads. cbn [bind]. unfold py_join.
  assert (Hcol : List.filter truthy
                   (map (fun payload => get payload "text" (VStr "")) payloads)
                 = map VStr (List.filter non_empty (map payload_text payloads))).
  { induction payloads as [|payload payloads IH]; [done|].
    cbn [text_payloads forallb] in Htxt.
    apply andb_true_iff in Htxt as [Hp Hrest].
    cbn [map List.filter].
    assert (Hhead : ∃ t, get payload "text" (VStr "") = VStr t
                         ∧ payload_text payload = t).
    { unfold payload_text.
      destruct (get payload "text" (VStr "")) as [| |t]; try discriminate.
      by exists t. }
    destruct Hhead as (t & Hg & Hpt). rewrite Hg, Hpt. cbn [truthy].
    fold (non_empty t). destruct (non_empty t); cbn [map]; by rewrite IH. }
  rewrite Hcol, strings_of_text.
  - cbn [bind]. by rewrite map_map, map_id.
  - apply strings_are_text.
Qed.

(** X16. [retrieve_relevant_text] never raises and gives up as a whole:
    when the search raises, when a hit has no payload, or when the [text]
    of some hit is a number other than 0, it returns the empty string and
    the texts of all the other hits are dropped. *)
Theorem retrieve_gives_up (search : result (list (option dict))) :
  (∃ msg, search = Raise msg)
  ∨ (∃ hits, search = Ok hits
             ∧ (None ∈ hits
                ∨ ∃ payload q, Some payload ∈ hits
                               ∧ get payload "text" (VStr "") = VNum q
                               ∧ q ≠ 0%Qc)) →
  retrieve_relevant_text search = "".
Proof.
  intros [[msg ->]|(hits & -> & Hbad)]; [done|].
  unfold retrieve_relevant_text. cbn [bind].
  assert (Hcases : (∃ msg, relevant_texts hits = Raise msg)
                   ∨ ∃ texts, relevant_texts hits = Ok texts
                              ∧ forallb is_text texts = false).
  { induction hits as [|[payload|] hits IH].
    - destruct Hbad as [H|(? & ? & H & _)]; by apply elem_of_nil in H.
    - cbn [relevant_texts].
      assert (Hhead : (∃ q, get payload "text" (VStr "") = VNum q ∧ q ≠ 0%Qc)
                      ∨ (None ∈ hits
                         ∨ ∃ payload' q, Some payload' ∈ hits
                             ∧ get payload' "text" (VStr "") = VNum q
                             ∧ q ≠ 0%Qc)).
      { destruct Hbad as [H|(payload' & q & H & Hq)].
        - apply elem_of_cons in H as [?|H]; [done|]. right. by left.
        - apply elem_of_cons in H as [[= <-]|H]; [left; by exists q|].
          right. right. by exists payload', q. }
      destruct Hhead as [(q & Hq & Hne)|Hrest].
      + destruct (relevant_texts hits) as [texts|msg]; [|left; by exists msg].
        right. cbn [bind]. rewrite Hq. cbn [truthy].
        rewrite bool_decide_eq_false_2 by done. cbn [negb].
        by eexists.
      + destruct (IH Hrest) as [[msg ->]|(texts & -> & Htexts)];
          [left; by exists msg|].
        right. cbn [bind]. eexists. split; [done|].
        destruct (truthy (get payload "text" (VStr ""))); [|done].
        cbn [forallb]. rewrite Htexts. apply andb_false_r.
    - left. by exists "AttributeError". }
  destruct Hcases as [[msg ->]|(texts & -> & Htexts)]; [done|].
  cbn [bind]. unfold py_join. by rewrite strings_of_raises.
Qed.

(** * The pages of the application *)

Lemma fragments_app (xs ys : list extraction) :
  fragments (xs ++ ys) = (fragments xs ++ fragments ys)%list.
Proof.
  induction xs as [|[items|] xs IH]; cbn [app fragments]; [done| |done].
  by rewrite IH, app_assoc.
Qed.

Section PagesFacts.
Variable num_repr : Qc → string.
Variable generate_content : nat → dict → result string.
Variable json_loads : string → option reply.
Variable ask : string → result string.
Variable loads : string → option json.
Variable qp_prompt gs_prompt : string.
Variable display_raises : dict → bool.

Abbreviation main' :=
  (main num_repr generate_content json_loads ask loads qp_prompt gs_prompt
     display_raises).
Abbreviation runs' :=
  (runs num_repr generate_content json_loads ask loads qp_prompt gs_prompt
     display_raises).

Lemma ocr_pages_fragments pages acc :
  forallb rendered pages = true →
  ∃ all_results,
    ocr_pages loads pages acc = Ok all_results
    ∧ fragments all_results
      = (fragments acc ++ concat (map (page_items loads) pages))%list.
Proof.
  revert acc. induction pages as [|[|response] pages IH]; intros acc Hr.
  - exists acc. cbn. by rewrite app_nil_r.
  - discriminate.
  - cbn [forallb rendered andb] in Hr. cbn [ocr_pages map concat].
    unfold ocr_image, page_items. destruct response as [text|msg]; cbn [bind].
    + set (j := match loads text with
                | Some j => j
                | None => JDict {[ "text" := VStr text ]}
                end).
      assert (Hj : match loads text with
                   | Some j0 => Ok j0
                   | None => Ok (JDict {[ "text" := VStr text ]})
                   end = Ok j) by (subst j; by destruct (loads text)).
      rewrite Hj.
      assert (Hitems : fragments [to_extraction j]
                       = match loads text with
                         | Some (JList items) => items
                         | _ => []
                         end).
      { subst j. destruct (loads text) as [[items| |]|]; cbn; [|done..].
        by rewrite app_nil_r. }
      destruct (IH (acc ++ [to_extraction j])%list Hr) as (all & -> & Hall).
      exists all. split; [done|].
      by rewrite Hall, fragments_app, Hitems, <- app_assoc.
    + destruct (IH acc Hr) as (all & -> & Hall). by exists all.
Qed.

(** X17. In the page loop of [ocr_page], a page whose OCR call raises, or
    whose response is not JSON or not a list, neither stops the loop nor
    contributes anything: when every page can be rendered, the fragments
    handed to the merge are the records of the pages whose response
    decodes to a list, in page order. *)
Theorem ocr_pages_keep_going pages :
  forallb rendered pages = true →
  ∃ all_results,
    ocr_pages loads pages [] = Ok all_results
    ∧ fragments all_results = concat (map (page_items loads) pages).
Proof. intros Hr. by destruct (ocr_pages_fragments pages [] Hr) as (? & ? & ?);
  eauto. Qed.

Lemma process_upload_keeps sc s :
  page (process_upload num_repr loads sc s) = page s
  ∧ stored_results (process_upload num_repr loads sc s) = stored_results s.
Proof.
  unfold process_upload. destruct (bind sc _) as [all|msg]; [|done].
  by destruct (merge_ocr_results num_repr all).
Qed.

Lemma ocr_page_keeps inp s :
  page s = Some "ocr" →
  known_page (page (ocr_page num_repr loads display_raises inp s)) = true
  ∧ page (ocr_page num_repr loads display_raises inp s) ≠ Some "grading"
  ∧ stored_results (ocr_page num_repr loads display_raises inp s)
    = stored_results s.
Proof.
  intros Hp. unfold ocr_page.
  set (s1 := match all_ocr_results s with
             | Some _ => s | None => set_all_ocr_results [] s end).
  assert (H1 : page s1 = Some "ocr" ∧ stored_results s1 = stored_results s)
    by (subst s1; by destruct (all_ocr_results s)).
  set (s2 := match merged_answers (data s1) with
             | Some _ => s1
             | None => set_data (set_merged_answers ∅ (data s1)) s1 end).
  assert (H2 : page s2 = Some "ocr" ∧ stored_results s2 = stored_results s)
    by (subst s2; by destruct (merged_answers (data s1))).
  clearbody s2. clear s1 H1. destruct H2 as [Hp2 Hr2].
  assert (Hnext : ∀ c t, page t = Some "ocr" →
            known_page (page (next_button c t)) = true
            ∧ page (next_button c t) ≠ Some "grading"
            ∧ stored_results (next_button c t) = stored_results t).
  { intros c t Ht. destruct c; cbn; rewrite ?Ht; done. }
  destruct (uploaded_file inp) as [[name sc]|].
  - destruct (decide (current_file_name s2 = Some name)).
    + destruct (display_raises _); [by rewrite Hp2, Hr2|].
      rewrite <- Hr2. by apply Hnext.
    + destruct (process_upload_keeps sc (set_current_file_name name s2))
        as [Hpp Hrr].
      destruct (Hnext (clicked inp)
                  (process_upload num_repr loads sc
                     (set_current_file_name name s2))) as (? & ? & Hk);
        [by rewrite Hpp|].
      by rewrite Hk, Hrr.
  - rewrite <- Hr2. by apply Hnext.
Qed.

Lemma additional_materials_page_keeps inp s :
  page s = Some "additional_materials" →
  let s' := additional_materials_page ask loads qp_prompt gs_prompt inp s in
  known_page (page s') = true
  ∧ (page s' = Some "grading" → has_grading_inputs (data s') = true)
  ∧ stored_results s' = stored_results s.
Proof.
  intros Hp. cbn zeta. unfold additional_materials_page.
  set (s1 := match question_paper inp with Some _ => _ | None => s end).
  assert (H1 : page s1 = page s ∧ stored_results s1 = stored_results s).
  { subst s1. destruct (question_paper inp) as [[name document]|]; [|done].
    by destruct (decide (qp_file_name s = Some name)). }
  set (s2 := match grading_scheme inp with Some _ => _ | None => s1 end).
  assert (H2 : page s2 = page s ∧ stored_results s2 = stored_results s).
  { subst s2. destruct (grading_scheme inp) as [[name document]|]; [|done].
    by destruct (decide (gs_file_name s1 = Some name)). }
  clearbody s2. clear s1 H1. destruct H2 as [Hp2 Hr2].
  set (s3 := set_data _ s2).
  assert (H3 : page s3 = Some "additional_materials"
               ∧ stored_results s3 = stored_results s)
    by (subst s3; cbn; by rewrite Hp2, Hp, Hr2).
  clearbody s3. destruct H3 as [Hp3 Hr3].
  destruct (clicked inp); cbn; rewrite ?Hp3; try done.
  destruct (has_grading_inputs (data s3)) eqn:Hin; cbn; rewrite ?Hp3; done.
Qed.

Lemma grading_page_run_keeps inp s :
  page s = Some "grading" →
  let s' := grading_page_run num_repr generate_content json_loads inp s in
  known_page (page s') = true
  ∧ data s' = data s
  ∧ (∀ results, stored_results s = Some results →
                stored_results s' = Some results).
Proof.
  intros Hp. cbn zeta. unfold grading_page_run.
  assert (Hbuttons : ∀ c t, page t = Some "grading" →
            known_page (page (grading_buttons c t)) = true
            ∧ data (grading_buttons c t) = data t
            ∧ stored_results (grading_buttons c t) = stored_results t).
  { intros c t Ht. destruct c; cbn; rewrite ?Ht; done. }
  destruct (stored_results s) as [results|] eqn:Hs.
  - rewrite Hs. cbn [default from_option id].
    destruct (total_score results).
    + destruct (Hbuttons (clicked inp) s Hp) as (? & ? & Hk).
      repeat split; [done..|]. intros results' [= <-]. by rewrite Hk.
    + rewrite Hp. repeat split. by intros results' [= <-].
  - destruct (grading_results _ _ _ (data s)) as [results|].
    + cbn [stored_results set_stored_results default from_option id].
      destruct (total_score results).
      * destruct (Hbuttons (clicked inp) (set_stored_results results s) Hp)
          as (? & ? & Hk).
        repeat split; [done..|]. intros results' Hr. congruence.
      * cbn. rewrite Hp. repeat split. intros results' Hr. congruence.
    + rewrite Hp. repeat split. intros results' Hr. congruence.
Qed.

Lemma known_page_cases p :
  known_page p = true →
  p = Some "ocr" ∨ p = Some "additional_materials" ∨ p = Some "grading".
Proof.
  intros Hk. destruct p as [p|]; [|done]. unfold known_page in Hk.
  repeat match type of Hk with
         | context [match ?x with _ => _ end] =>
             destruct x; try discriminate Hk
         end;
    first [ left; reflexivity
          | right; left; reflexivity
          | right; right; reflexivity ].
Qed.

End PagesFacts.

Section PagesTheorems.
Variable num_repr : Qc → string.
Variable generate_content : nat → dict → result string.
Variable json_loads : string → option reply.
Variable ask : string → result string.
Variable loads : string → option json.
Variable qp_prompt gs_prompt : string.
Variable display_raises : dict → bool.

Abbreviation main_ :=
  (main num_repr generate_content json_loads ask loads qp_prompt gs_prompt
     display_raises).
Abbreviation runs_ :=
  (runs num_repr generate_content json_loads ask loads qp_prompt gs_prompt
     display_raises).

Lemma main_unknown s inp p :
  page s = Some p → known_page (Some p) = false → main_ s inp = s.
Proof.
  intros Hp Hk. unfold main. rewrite Hp. cbn zeta. rewrite Hp.
  unfold known_page in Hk.
  repeat match type of Hk with
         | context [match ?x with _ => _ end] =>
             destruct x; try discriminate Hk
         end;
    reflexivity.
Qed.

Lemma main_ocr s inp :
  page s = Some "ocr" →
  main_ s inp = ocr_page num_repr loads display_raises inp s.
Proof. intros Hp. unfold main. rewrite Hp. cbn zeta. by rewrite Hp. Qed.

Lemma main_materials s inp :
  page s = Some "additional_materials" →
  main_ s inp = additional_materials_page ask loads qp_prompt gs_prompt inp s.
Proof. intros Hp. unfold main. rewrite Hp. cbn zeta. by rewrite Hp. Qed.

Lemma main_grading s inp :
  page s = Some "grading" →
  main_ s inp = grading_page_run num_repr generate_content json_loads inp s.
Proof. intros Hp. unfold main. rewrite Hp. cbn zeta. by rewrite Hp. Qed.

Lemma main_first s inp :
  page s = None →
  main_ s inp = ocr_page num_repr loads display_raises inp (set_page "ocr" s).
Proof. intros Hp. unfold main. by rewrite Hp. Qed.

Lemma main_inv s inp : page_inv s → page_inv (main_ s inp).
Proof.
  intros [Hknown Hgrading]. unfold page_inv.
  assert (Hocr : ∀ t, page t = Some "ocr" →
            page_inv (ocr_page num_repr loads display_raises inp t)).
  { intros t Ht.
    destruct (ocr_page_keeps num_repr loads display_raises inp t Ht)
      as (Hk & Hng & _).
    split; [by right | done]. }
  destruct (page s) as [p|] eqn:Hp; [|rewrite main_first by done; by apply Hocr].
  destruct Hknown as [|Hknown]; [done|].
  destruct (known_page_cases _ Hknown) as [[= ->]|[[= ->]|[= ->]]].
  - rewrite main_ocr by done. by apply Hocr.
  - rewrite main_materials by done.
    destruct (additional_materials_page_keeps ask loads qp_prompt gs_prompt
                inp s Hp) as (Hk & Hg & _).
    split; [by right | done].
  - rewrite main_grading by done.
    destruct (grading_page_run_keeps num_repr generate_content json_loads
                inp s Hp) as (Hk & Hd & _).
    split; [by right|]. intros _. rewrite Hd. by apply Hgrading.
Qed.

Lemma runs_inv s inputs : page_inv s → page_inv (runs_ s inputs).
Proof.
  revert s. induction inputs as [|inp inputs IH]; intros s Hinv; [done|].
  cbn [runs foldl]. apply IH. by apply main_inv.
Qed.

(** X18. Whatever the user uploads and clicks, from the first run on the
    application shows one of its three pages, and it shows the grading
    page only while merged answers, a question-paper result and a
    grading-scheme result are all stored: the grading page is never opened
    without them and nothing removes them afterwards. *)
Theorem pages_reached inputs p :
  page (runs_ initial_state inputs) = Some p →
  known_page (Some p) = true
  ∧ (p = "grading" →
     is_Some (merged_answers (data (runs_ initial_state inputs)))
     ∧ is_Some (question_paper_json (data (runs_ initial_state inputs)))
     ∧ is_Some (grading_scheme_json (data (runs_ initial_state inputs)))).
Proof.
  intros Hp.
  destruct (runs_inv initial_state inputs) as [Hknown Hgrading].
  { split; [by left | done]. }
  rewrite Hp in Hknown, Hgrading.
  split; [by destruct Hknown|]. intros ->.
  specialize (Hgrading eq_refl). unfold has_grading_inputs in Hgrading.
  apply andb_true_iff in Hgrading as [Hg H3].
  apply andb_true_iff in Hg as [H1 H2].
  by apply bool_decide_eq_true in H1, H2, H3.
Qed.

Lemma main_keeps_results s inp results :
  stored_results s = Some results →
  stored_results (main_ s inp) = Some results.
Proof.
  intros Hr.
  assert (Hocr : ∀ t, page t = Some "ocr" → stored_results t = Some results →
            stored_results (ocr_page num_repr loads display_raises inp t)
            = Some results).
  { intros t Ht Htr.
    destruct (ocr_page_keeps num_repr loads display_raises inp t Ht)
      as (_ & _ & ->). done. }
  destruct (page s) as [p|] eqn:Hp; [|rewrite main_first by done; by apply Hocr].
  destruct (known_page (Some p)) eqn:Hk;
    [|by rewrite (main_unknown s inp p)].
  destruct (known_page_cases _ Hk) as [[= ->]|[[= ->]|[= ->]]].
  - rewrite main_ocr by done. by apply Hocr.
  - rewrite main_materials by done.
    by destruct (additional_materials_page_keeps ask loads qp_prompt gs_prompt
                   inp s Hp) as (_ & _ & ->).
  - rewrite main_grading by done.
    destruct (grading_page_run_keeps num_repr generate_content json_loads
                inp s Hp) as (_ & _ & Hkeep).
    by apply Hkeep.
Qed.

(** X19. Grading happens at most once in a session: once results are
    stored, no later run changes them, whatever is uploaded or clicked
    afterwards (a new answer sheet, question paper or grading scheme is
    never graded). *)
Theorem results_never_change s inputs results :
  stored_results s = Some results →
  stored_results
    (runs num_repr generate_content json_loads ask loads qp_prompt gs_prompt
       display_raises s inputs)
  = Some results.
Proof.
  revert s. induction inputs as [|inp inputs IH]; intros s Hr; [done|].
  cbn [runs foldl]. apply IH. by apply main_keeps_results.
Qed.

(** X20. The grading page can be a dead end.  When it is shown without
    results and the assembler yields no request, or with results whose
    header raises, every run leaves the state exactly as it is: the
    navigation buttons are never reached, so no click leads back to the
    other pages. *)
Theorem grading_dead_end s inputs :
  page s = Some "grading" →
  (stored_results s = None
   ∧ grading_results generate_content json_loads num_repr (data s) = None)
  ∨ (∃ results msg, stored_results s = Some results
                    ∧ total_score results = Raise msg) →
  runs_ s inputs = s.
Proof.
  intros Hp Hdead.
  assert (Hstep : ∀ inp, main_ s inp = s).
  { intros inp. rewrite main_grading by done. unfold grading_page_run.
    destruct Hdead as [[-> ->]|(results & msg & Hstored & Hraise)]; [done|].
    rewrite Hstored. cbn beta iota. rewrite Hstored.
    cbn [default from_option id]. by rewrite Hraise. }
  induction inputs as [|inp inputs IH]; [done|].
  cbn [runs foldl]. by rewrite Hstep.
Qed.

Lemma next_button_keeps c s :
  data (next_button c s) = data s
  ∧ all_ocr_results (next_button c s) = all_ocr_results s
  ∧ current_file_name (next_button c s) = current_file_name s.
Proof. by destruct c. Qed.

(** X21. On the OCR page an upload whose name equals the name recorded for
    the last processed file is not processed: whatever the file contains,
    the merged answers and the page results stay those already stored. *)
Theorem same_name_is_not_reprocessed s inp name sc :
  let s' := main num_repr generate_content json_loads ask loads qp_prompt
              gs_prompt display_raises s inp in
  page s = Some "ocr" →
  current_file_name s = Some name →
  uploaded_file inp = Some (name, sc) →
  merged_answers (data s') = Some (default ∅ (merged_answers (data s)))
  ∧ all_ocr_results s' = Some (default [] (all_ocr_results s))
  ∧ current_file_name s' = Some name.
Proof.
  intros s' Hp Hname Hup. subst s'. rewrite main_ocr by done. unfold ocr_page.
  rewrite Hup.
  set (s1 := match all_ocr_results s with
             | Some _ => s | None => set_all_ocr_results [] s end).
  set (s2 := match merged_answers (data s1) with
             | Some _ => s1
             | None => set_data (set_merged_answers ∅ (data s1)) s1 end).
  assert (H2 : merged_answers (data s2)
               = Some (default ∅ (merged_answers (data s)))
               ∧ all_ocr_results s2 = Some (default [] (all_ocr_results s))
               ∧ current_file_name s2 = Some name).
  { subst s2 s1.
    destruct (all_ocr_results s) eqn:Ha, (merged_answers (data s)) eqn:Hm;
      cbn; rewrite ?Ha, ?Hm; cbn; rewrite ?Ha, ?Hm; done. }
  clearbody s2. destruct H2 as (Hm2 & Ha2 & Hn2).
  destruct (decide (current_file_name s2 = Some name)); [|done].
  destruct (display_raises _); [done|].
  destruct (next_button_keeps (clicked inp) s2) as (-> & -> & ->). done.
Qed.

(** X22. On the OCR page an upload under a new name is recorded as
    processed before it is processed.  When the PDF cannot be opened, a
    page cannot be rendered, or the merge raises, the merged answers stay
    those of the earlier file (or empty); the file name is recorded all
    the same, so the same file is not tried again. *)
Theorem failed_upload_keeps_old_answers s inp name sc :
  page s = Some "ocr" →
  current_file_name s ≠ Some name →
  uploaded_file inp = Some (name, sc) →
  (∃ msg, bind sc (fun pages => ocr_pages loads pages []) = Raise msg)
  ∨ (∃ all_results msg,
       bind sc (fun pages => ocr_pages loads pages []) = Ok all_results
       ∧ merge_ocr_results num_repr all_results = Raise msg) →
  merged_answers (data (main_ s inp))
  = Some (default ∅ (merged_answers (data s)))
  ∧ current_file_name (main_ s inp) = Some name.
Proof.
  intros Hp Hname Hup Hfail. rewrite main_ocr by done. unfold ocr_page.
  rewrite Hup.
  set (s1 := match all_ocr_results s with
             | Some _ => s | None => set_all_ocr_results [] s end).
  set (s2 := match merged_answers (data s1) with
             | Some _ => s1
             | None => set_data (set_merged_answers ∅ (data s1)) s1 end).
  assert (H2 : merged_answers (data s2)
               = Some (default ∅ (merged_answers (data s)))
               ∧ current_file_name s2 = current_file_name s).
  { subst s2 s1.
    destruct (all_ocr_results s) eqn:Ha, (merged_answers (data s)) eqn:Hm;
      cbn; rewrite ?Ha, ?Hm; cbn; rewrite ?Ha, ?Hm; done. }
  clearbody s2. destruct H2 as (Hm2 & Hn2).
  destruct (decide (current_file_name s2 = Some name)); [congruence|].
  destruct (next_button_keeps (clicked inp)
              (process_upload num_repr loads sc (set_current_file_name name s2)))
    as (-> & _ & ->).
  unfold process_upload.
  destruct Hfail as [[msg ->]|(all & msg & -> & ->)]; done.
Qed.

End PagesTheorems.

(** * Further instances *)

Lemma split_text_chunks_witness :
  split_text 3 digits 4 1 = Some [[0; 1; 2; 3]; [3; 4; 5; 6; 7]; [7; 8; 9]].
Proof.
  rewrite (split_text_chunks 3 digits 4 1); [reflexivity | lia |].
  vm_compute. lia.
Defined.

Lemma split_text_never_returns_witness : split_text 1000 digits 0 200 = None.
Proof. apply (split_text_never_returns 1000 digits 0 200); [lia | done]. Defined.

Lemma split_text_rejoin_witness :
  ∃ chunks, split_text 3 digits 4 1 = Some chunks ∧ rejoin 1 chunks = digits.
Proof.
  apply (split_text_rejoin 3 digits 4 1); [lia | lia |]. vm_compute. lia.
Defined.

Lemma split_text_sizes_witness :
  ∃ chunks,
    split_text 3 digits 4 1 = Some chunks
    ∧ length chunks = 3
    ∧ ∃ chunk, chunks !! 1 = Some chunk ∧ length chunk = 5.
Proof.
  destruct (split_text_sizes 3 digits 4 1) as (chunks & Hsplit & Hlen & Hsizes);
    [lia | lia | vm_compute; lia |].
  exists chunks. split; [exact Hsplit|]. split; [exact Hlen|].
  destruct (chunks !! 1) as [chunk|] eqn:Hchunk.
  - exists chunk. split; [reflexivity|].
    destruct (Hsizes 1 chunk Hchunk) as [Hsize _].
    assert (Hfive : Z.of_nat (length chunk) = 5%Z)
      by (rewrite Hsize; reflexivity).
    lia.
  - apply lookup_ge_None in Hchunk. rewrite Hlen in Hchunk.
    vm_compute in Hchunk. lia.
Defined.

Lemma split_text_overlap_witness :
  ∃ chunks,
    split_text 3 digits 4 1 = Some chunks
    ∧ ∀ k a b, chunks !! k = Some a → chunks !! S k = Some b →
        take 1 b = drop (length a - 1) a.
Proof.
  apply (split_text_overlap 3 digits 4 1); [lia | lia |]. vm_compute. lia.
Defined.

Lemma merge_same_fragments_witness :
  merge_ocr_results plain_repr
    [Records [frag "1" "a"]; NotAList; Records []; Records [frag "Contd" "b"]]
  = merge_ocr_results plain_repr [Records [frag "1" "a"; frag "Contd" "b"]].
Proof. apply (merge_same_fragments plain_repr). reflexivity. Defined.

Lemma merge_total_on_text_witness :
  ∃ m, merge_ocr_results plain_repr
         [Records [frag "1" "a"; frag "Contd" "b"; ∅]] = Ok m
       ∧ map_Forall (fun _ v => is_text v = true) m.
Proof. apply (merge_total_on_text plain_repr). reflexivity. Defined.

Lemma merge_keys_witness :
  ∃ m, merge_ocr_results plain_repr
         [Records [frag "Contd" "x"; frag "1" "a"; frag "contd" "b"]] = Ok m
       ∧ ∀ k, is_Some (m !! k)
              ↔ (∃ item rest,
                   fragments
                     [Records [frag "Contd" "x"; frag "1" "a"; frag "contd" "b"]]
                   = item :: rest
                   ∧ label_of plain_repr item = k)
                ∨ (∃ item,
                     item ∈ fragments
                              [Records [frag "Contd" "x"; frag "1" "a";
                                        frag "contd" "b"]]
                     ∧ label_of plain_repr item = k
                     ∧ is_marker k = false).
Proof. apply (merge_keys plain_repr). reflexivity. Defined.

Lemma merge_texts_witness :
  ∃ m, merge_ocr_results plain_repr
         [Records [frag "1" "a"; frag "2" "b"]; Records [frag "Contd" "c"];
          Records [frag "1" "d"]] = Ok m
       ∧ m !! "1" = Some (VStr (join nl2 ["a"; "d"]))
       ∧ m !! "2" = Some (VStr (join nl2 ["b"; "c"]))
       ∧ m !! "3" = None.
Proof.
  destruct (merge_texts plain_repr
              [Records [frag "1" "a"; frag "2" "b"]; Records [frag "Contd" "c"];
               Records [frag "1" "d"]]) as (m & Hm & Htexts); [reflexivity|].
  exists m. split; [exact Hm|]. rewrite !Htexts. repeat split.
Defined.

Lemma merge_raises_on_non_text_witness :
  merge_ocr_results plain_repr [Records [ {[ "question_number" := VStr "1";
                                             "answer" := num 42 ]} ]]
  = Ok {[ "1" := num 42 ]}
  ∧ merge_ocr_results plain_repr
      [Records [ {[ "question_number" := VStr "1"; "answer" := num 42 ]} ];
       Records [frag "Contd" "and so on"; frag "2" "b"]]
    = Raise "TypeError".
Proof.
  exact (merge_raises_on_non_text plain_repr
           [Records [ {[ "question_number" := VStr "1"; "answer" := num 42 ]} ];
            Records [frag "Contd" "and so on"; frag "2" "b"]]
           {[ "question_number" := VStr "1"; "answer" := num 42 ]}
           (frag "Contd" "and so on") [frag "2" "b"]
           eq_refl eq_refl eq_refl).
Defined.

Lemma last_rubric_record_wins_witness :
  ∃ reqs req,
    prepare_grading_data plain_repr
      (session ∅ [question "1" "Q1" 10]
         [ {[ "question_number" := VStr "1"; "grading_scheme" := VStr "old" ]};
           {[ "question_number" := VStr "1"; "grading_scheme" := VStr "new" ]};
           {[ "question_number" := VStr "2"; "grading_scheme" := VStr "other" ]} ]
         None)
    = Some reqs
    ∧ reqs !! 0 = Some req
    ∧ req !! "grading_scheme" = Some (VStr "new").
Proof.
  assert (Hlater :
    Forall (fun other =>
              rubric_key plain_repr other
              ≠ rubric_key plain_repr
                  {[ "question_number" := VStr "1";
                     "grading_scheme" := VStr "new" ]})
      [ {[ "question_number" := VStr "2"; "grading_scheme" := VStr "other" ]} ])
    by (repeat constructor; vm_compute; discriminate).
  exact (last_rubric_record_wins plain_repr ∅ [] [] (question "1" "Q1" 10)
           [ {[ "question_number" := VStr "1"; "grading_scheme" := VStr "old" ]} ]
           [ {[ "question_number" := VStr "2";
                "grading_scheme" := VStr "other" ]} ]
           {[ "question_number" := VStr "1"; "grading_scheme" := VStr "new" ]}
           None eq_refl eq_refl Hlater).
Defined.

Lemma request_shape_witness :
  dom (question_data_of ∅ ∅ (VStr "") "1" (question "1" "Q1" 10))
  = ({[ "question_num"; "question"; "marks"; "student_answer";
        "grading_scheme"; "relevant_lecture_text"; "professor_prompt" ]}
     : gset string)
  ∧ (∃ q, question_data_of ∅ ∅ (VStr "") "1" (question "1" "Q1" 10)
          !! "question_num" = Some (VStr q) ∧ q ≠ "")
  ∧ question_data_of ∅ ∅ (VStr "") "1" (question "1" "Q1" 10)
    !! "relevant_lecture_text" = Some (VStr "")
  ∧ question_data_of ∅ ∅ (VStr "") "1" (question "1" "Q1" 10)
    !! "professor_prompt" = Some (VStr "").
Proof.
  apply (request_shape plain_repr
           (session ∅ [question "1" "Q1" 10; unnumbered_question] [] None)
           [question_data_of ∅ ∅ (VStr "") "1" (question "1" "Q1" 10)]).
  - reflexivity.
  - apply list_elem_of_In. by left.
Defined.


Lemma possible_unaffected_by_failures_witness :
  map marks_of (grade_from second_call_times_out (awards 7) 0 two_requests)
  = map marks_of two_requests
  ∧ total_possible_marks
      (grade_from second_call_times_out (awards 7) 0 two_requests)
    = total_possible_marks two_requests.
Proof.
  apply (possible_unaffected_by_failures second_call_times_out (awards 7)).
  intros text g [= <-]. reflexivity.
Defined.

Lemma failed_request_counts_zero_witness :
  ∃ r, grade_from always_answers no_json 0
         [question_data_of ∅ ∅ (VStr "") "1" (question "1" "Q1" 10)] !! 0
       = Some r
       ∧ marks_awarded_of r = num 0.
Proof.
  apply (failed_request_counts_zero plain_repr always_answers no_json
           (session ∅ [question "1" "Q1" 10] [] None)
           [question_data_of ∅ ∅ (VStr "") "1" (question "1" "Q1" 10)] 0
           (question_data_of ∅ ∅ (VStr "") "1" (question "1" "Q1" 10))).
  - reflexivity.
  - reflexivity.
  - right. by exists "fine".
Defined.

Lemma unreadable_paper_blocks_grading_witness :
  process_question_paper_pdf sample_ask sample_loads "prompt" (Raise "no file")
  = error_dict "Failed to extract text from PDF"
  ∧ prepare_grading_data plain_repr (data stuck_state) = None
  ∧ grading_page always_answers (awards 7) plain_repr (data stuck_state) = None.
Proof.
  apply (unreadable_paper_blocks_grading sample_ask sample_loads "prompt"
           plain_repr always_answers (awards 7) (Raise "no file")
           (data stuck_state)); reflexivity.
Defined.

Lemma retrieve_joins_texts_witness :
  retrieve_relevant_text
    (Ok [Some {[ "text" := VStr "first" ]}; Some ∅;
         Some {[ "text" := VStr "" ]}; Some {[ "text" := VStr "second" ]}])
  = "first" ++ nl2 ++ "second".
Proof.
  exact (retrieve_joins_texts
           [ {[ "text" := VStr "first" ]}; ∅; {[ "text" := VStr "" ]};
             {[ "text" := VStr "second" ]} ] eq_refl).
Defined.

Lemma retrieve_gives_up_witness :
  retrieve_relevant_text
    (Ok [Some {[ "text" := VStr "first" ]}; Some {[ "text" := num 7 ]}])
  = "".
Proof.
  apply (retrieve_gives_up
           (Ok [Some {[ "text" := VStr "first" ]}; Some {[ "text" := num 7 ]}])).
  right. eexists. split; [reflexivity|]. right.
  exists {[ "text" := num 7 ]}, (Q2Qc (inject_Z 7)).
  split; [|split; [reflexivity | discriminate]].
  apply list_elem_of_In. right. by left.
Defined.

Lemma ocr_pages_keep_going_witness :
  ∃ all_results,
    ocr_pages sample_loads
      [Rendered (Ok "page 1"); Rendered (Raise "timed out");
       Rendered (Ok "page 3")] [] = Ok all_results
    ∧ fragments all_results = [question "1" "Q1" 10; question "1" "Q1" 10].
Proof.
  exact (ocr_pages_keep_going sample_loads
           [Rendered (Ok "page 1"); Rendered (Raise "timed out");
            Rendered (Ok "page 3")] eq_refl).
Defined.

Lemma pages_reached_witness :
  page (runs plain_repr always_answers (awards 7) sample_ask sample_loads
          "qp" "gs" never_raises initial_state
          [click_only ClickNext; materials_and_grade]) = Some "grading"
  ∧ known_page (Some "grading") = true.
Proof.
  split; [reflexivity|].
  apply (pages_reached plain_repr always_answers (awards 7) sample_ask
           sample_loads "qp" "gs" never_raises
           [click_only ClickNext; materials_and_grade] "grading").
  reflexivity.
Defined.

Lemma results_never_change_witness :
  stored_results
    (runs plain_repr always_answers (awards 7) sample_ask sample_loads
       "qp" "gs" never_raises graded_state
       [click_only ClickBackToOcr; upload_sheet "new.pdf" (Ok []);
        click_only ClickNext; materials_and_grade; no_input])
  = Some two_requests.
Proof.
  apply (results_never_change plain_repr always_answers (awards 7) sample_ask
           sample_loads "qp" "gs" never_raises graded_state).
  reflexivity.
Defined.

Lemma grading_dead_end_witness :
  runs plain_repr always_answers (awards 7) sample_ask sample_loads
    "qp" "gs" never_raises stuck_state
    [click_only ClickBackToMaterials; click_only ClickBackToOcr]
  = stuck_state.
Proof.
  apply (grading_dead_end plain_repr always_answers (awards 7) sample_ask
           sample_loads "qp" "gs" never_raises stuck_state);
    [reflexivity|]. left. split; reflexivity.
Defined.

Lemma same_name_is_not_reprocessed_witness :
  merged_answers
    (data (main plain_repr always_answers (awards 7) sample_ask sample_loads
             "qp" "gs" never_raises processed_state
             (upload_sheet "sheet.pdf" (Ok [Rendered (Ok "corrected")]))))
  = Some {[ "1" := VStr "an answer" ]}.
Proof.
  apply (same_name_is_not_reprocessed plain_repr always_answers (awards 7)
           sample_ask sample_loads "qp" "gs" never_raises processed_state
           (upload_sheet "sheet.pdf" (Ok [Rendered (Ok "corrected")]))
           "sheet.pdf" (Ok [Rendered (Ok "corrected")]));
    reflexivity.
Defined.

Lemma failed_upload_keeps_old_answers_witness :
  merged_answers
    (data (main plain_repr always_answers (awards 7) sample_ask sample_loads
             "qp" "gs" never_raises processed_state
             (upload_sheet "other.pdf" (Raise "cannot open"))))
  = Some {[ "1" := VStr "an answer" ]}
  ∧ current_file_name
      (main plain_repr always_answers (awards 7) sample_ask sample_loads
         "qp" "gs" never_raises processed_state
         (upload_sheet "other.pdf" (Raise "cannot open")))
    = Some "other.pdf".
Proof.
  apply (failed_upload_keeps_old_answers plain_repr always_answers (awards 7)
           sample_ask sample_loads "qp" "gs" never_raises processed_state
           (upload_sheet "other.pdf" (Raise "cannot open"))
           "other.pdf" (Raise "cannot open")).
  - reflexivity.
  - discriminate.
  - reflexivity.
  - left. by exists "cannot open".
Defined.
